(** * Registration of organizational units under Control Tower

    A shallow embedding of [register_ou_control_tower.py] and the properties
    of its retry and polling loops.

    The Python functions talk to a remote control plane through a boto3
    client, print log lines and sleep.  They are embedded as computations of
    a state-and-exception monad over a [World] that records every call made
    to the client, every line printed and every sleep, in order.  The client
    itself is an oracle: the answer to the k-th call of an API operation is a
    function of k and of the arguments of the call. *)

From Stdlib Require Import String Ascii List Arith Bool Lia.
Import ListNotations.
Open Scope string_scope.

(** ** Python values and exceptions *)

(** The exceptions of the program.  [ClientError] is botocore's class for an
    error response of the service, with [e.response['Error']['Code']] and
    [e.response['Error']['Message']]; [Exception_] stands for every other
    instance of Python's [Exception] (the ones the program raises itself and
    the client-side failures of botocore). *)
Inductive exn : Type :=
| ClientError (code message : string)
| Exception_ (message : string).

(** [except ClientError] and [except Exception]. *)
Definition is_ClientError (e : exn) : bool :=
  match e with
  | ClientError _ _ => true
  | Exception_ _ => false
  end.

Definition is_Exception (e : exn) : bool := true.

(** [needle in hay] on Python strings. *)
Fixpoint contains (needle hay : string) : bool :=
  if prefix needle hay then true
  else match hay with
       | EmptyString => false
       | String _ rest => contains needle rest
       end.

(** Truth value of a string and of [None]-or-string. *)
Definition str_truthy (s : string) : bool := negb (s =? "").

Definition truthy (v : option string) : bool :=
  match v with
  | Some s => str_truthy s
  | None => false
  end.

Definition opt_eqb (v : option string) (s : string) : bool :=
  match v with
  | Some s' => s' =? s
  | None => false
  end.

Definition is_None (v : option string) : bool :=
  match v with
  | Some _ => false
  | None => true
  end.

(** ** Data of the control-plane API *)

Record Baseline := { baseline_name : string; baseline_arn : string }.

Record EnabledBaseline := { enabled_arn : string }.

Record OU := { ou_id : string; ou_arn : string }.

Record EnableArgs := {
  baselineIdentifier : string;
  baselineVersion : string;
  targetIdentifier : string;
  parameters : list (string * string)
}.

(** [response.get('operationIdentifier')] is [None] when the key is absent. *)
Record EnableResponse := { operationIdentifier : option string }.

Record BaselineOperation := { status : option string }.

Record OperationResponse := { baselineOperation : option BaselineOperation }.

(** [response.get('baselineOperation', {}).get('status')] *)
Definition get_status (response : OperationResponse) : option string :=
  match baselineOperation response with
  | Some op => status op
  | None => None
  end.

(** What a call of the client does: it answers or it raises. *)
Definition outcome (A : Type) : Type := (A + exn)%type.

(** The boto3 client.  The two list operations are called once per run; the
    other two are called repeatedly and may answer differently each time. *)
Record Client := {
  list_baselines : outcome (list Baseline);
  list_enabled_baselines : outcome (list EnabledBaseline);
  enable_baseline_api : nat -> EnableArgs -> outcome EnableResponse;
  get_baseline_operation : nat -> string -> outcome OperationResponse
}.

(** ** Observable events *)

(** The lines the program prints, one constructor per [print] of the source,
    carrying the values interpolated in its f-string. *)
Inductive log_line : Type :=
| LogEnableResponse (response : EnableResponse)
| LogClientErrorInEnable (e : exn)
| LogAlreadyRegistered (ou : string)
| LogAnotherOperation (ou : string)
| LogOperationResponse (response : OperationResponse)
| LogOperationStatus (st : string)
| LogStatusNotFound (response : OperationResponse)
| LogErrorCheckingStatus (e : exn)
| LogErrorWaiting (e : exn)
| LogRegistering (ou : string)
| LogSuccessfullyRegistered (ou : string)
| LogFailedToRegister (ou : string)
| LogSkipped (ou : string)
| LogErrorRegistering (ou : string) (e : exn)
| LogErrorBaselineInfo (e : exn)
| LogStopping (ou : string).

Inductive event : Type :=
| Printed (line : log_line)
| Slept (seconds : nat)
| CallListBaselines
| CallListEnabledBaselines
| CallEnableBaseline (args : EnableArgs)
| CallGetBaselineOperation (operation_id : string).

(** The world: the events so far (oldest first), the number of calls made to
    each repeated operation, and the time spent sleeping. *)
Record World := {
  trace : list event;
  enable_calls : nat;
  operation_calls : nat;
  slept : nat
}.

Definition initial_world : World :=
  {| trace := []; enable_calls := 0; operation_calls := 0; slept := 0 |}.

Definition record (ev : event) (w : World) : World :=
  {| trace := trace w ++ [ev];
     enable_calls := enable_calls w;
     operation_calls := operation_calls w;
     slept := slept w |}.

(** ** The monad *)

(** A computation returns, raises an exception, or leaves the process through
    [sys.exit] ([SystemExit] is not an [Exception], so no handler of the
    program catches it). *)
Inductive result (A : Type) : Type :=
| Returns (a : A)
| Raises (e : exn)
| Exits (code : nat).

Arguments Returns {A} a.
Arguments Raises {A} e.
Arguments Exits {A} code.

Definition M (A : Type) : Type := World -> result A * World.

Definition ret {A} (a : A) : M A := fun w => (Returns a, w).

Definition bind {A B} (m : M A) (k : A -> M B) : M B :=
  fun w =>
    match m w with
    | (Returns a, w') => k a w'
    | (Raises e, w') => (Raises e, w')
    | (Exits n, w') => (Exits n, w')
    end.

Notation "x <- m ;; k" := (bind m (fun x => k))
  (at level 61, m at next level, right associativity).
Notation "m ;;; k" := (bind m (fun _ => k))
  (at level 61, right associativity).

Definition raise {A} (e : exn) : M A := fun w => (Raises e, w).

Definition sys_exit {A} (code : nat) : M A := fun w => (Exits code, w).

(** [try: body / except <class> as e: handler e] *)
Definition try_except {A} (body : M A) (catches : exn -> bool)
    (handler : exn -> M A) : M A :=
  fun w =>
    match body w with
    | (Raises e, w') => if catches e then handler e w' else (Raises e, w')
    | r => r
    end.

Definition print (line : log_line) : M unit :=
  fun w => (Returns tt, record (Printed line) w).

(** [time.sleep(seconds)] *)
Definition sleep (seconds : nat) : M unit :=
  fun w =>
    (Returns tt,
     {| trace := trace w ++ [Slept seconds];
        enable_calls := enable_calls w;
        operation_calls := operation_calls w;
        slept := slept w + seconds |}).

Definition of_outcome {A} (o : outcome A) : result A :=
  match o with
  | inl a => Returns a
  | inr e => Raises e
  end.

(** The four operations of the client, as computations. *)
Definition call_list_baselines (client : Client) : M (list Baseline) :=
  fun w => (of_outcome (list_baselines client), record CallListBaselines w).

Definition call_list_enabled_baselines (client : Client)
    : M (list EnabledBaseline) :=
  fun w =>
    (of_outcome (list_enabled_baselines client),
     record CallListEnabledBaselines w).

Definition call_enable_baseline (client : Client) (args : EnableArgs)
    : M EnableResponse :=
  fun w =>
    (of_outcome (enable_baseline_api client (enable_calls w) args),
     {| trace := trace w ++ [CallEnableBaseline args];
        enable_calls := S (enable_calls w);
        operation_calls := operation_calls w;
        slept := slept w |}).

Definition call_get_baseline_operation (client : Client)
    (operation_id : string) : M OperationResponse :=
  fun w =>
    (of_outcome (get_baseline_operation client (operation_calls w) operation_id),
     {| trace := trace w ++ [CallGetBaselineOperation operation_id];
        enable_calls := enable_calls w;
        operation_calls := S (operation_calls w);
        slept := slept w |}).

(** What a loop body does: [return v] or fall through to the next round. *)
Inductive step (A : Type) : Type :=
| Return_ (v : A)
| Next.

Arguments Return_ {A} v.
Arguments Next {A}.

(** ** The program *)

(** *** Baseline resolver *)

Definition not_found_baseline : exn :=
  Exception_ "AWSControlTowerBaseline not found".

Definition not_found_identity_center : exn :=
  Exception_ "IdentityCenterBaseline not found".

(** The [for baseline in response['baselines']] loop and the [raise] after
    it. *)
Fixpoint first_control_tower_baseline (baselines : list Baseline)
    : result string :=
  match baselines with
  | [] => Raises not_found_baseline
  | baseline :: rest =>
      if baseline_name baseline =? "AWSControlTowerBaseline"
      then Returns (baseline_arn baseline)
      else first_control_tower_baseline rest
  end.

Definition get_baseline_identifier (client : Client) : M string :=
  baselines <- call_list_baselines client ;;
  fun w => (first_control_tower_baseline baselines, w).

(** The substring the source looks for in the ARN of an enabled baseline. *)
Definition identity_center_marker : string := "arn".

Fixpoint first_identity_center_baseline (baselines : list EnabledBaseline)
    : result string :=
  match baselines with
  | [] => Raises not_found_identity_center
  | baseline :: rest =>
      if contains identity_center_marker (enabled_arn baseline)
      then Returns (enabled_arn baseline)
      else first_identity_center_baseline rest
  end.

Definition get_identity_center_enabled_baseline_arn (client : Client)
    : M string :=
  baselines <- call_list_enabled_baselines client ;;
  fun w => (first_identity_center_baseline baselines, w).

(** *** Baseline enabler *)

Definition enable_args (ou_arn_ baseline_identifier identity_center_arn : string)
    : EnableArgs :=
  {| baselineIdentifier := baseline_identifier;
     baselineVersion := "4.0";
     targetIdentifier := ou_arn_;
     parameters := [("IdentityCenterEnabledBaselineArn", identity_center_arn)] |}.

Definition IN_PROGRESS : string := "IN_PROGRESS".

Definition enable_baseline (client : Client)
    (ou_id_ ou_arn_ baseline_identifier identity_center_arn : string)
    : M (option string) :=
  try_except
    (response <- call_enable_baseline client
                   (enable_args ou_arn_ baseline_identifier identity_center_arn) ;;
     print (LogEnableResponse response) ;;;
     ret (operationIdentifier response))
    is_ClientError
    (fun e =>
       print (LogClientErrorInEnable e) ;;;
       match e with
       | ClientError code message =>
           if code =? "ConflictException" then
             if contains "already governed" message then
               print (LogAlreadyRegistered ou_id_) ;;;
               ret None
             else if contains "another operation is in progress" message then
               print (LogAnotherOperation ou_id_) ;;;
               ret (Some IN_PROGRESS)
             else raise e
           else raise e
       | Exception_ _ => raise e
       end).

(** *** Operation poller *)

Definition poll_once (client : Client) (operation_id : string)
    : M (step bool) :=
  try_except
    (response <- call_get_baseline_operation client operation_id ;;
     print (LogOperationResponse response) ;;;
     match get_status response with
     | Some st =>
         if str_truthy st then
           print (LogOperationStatus st) ;;;
           if st =? "SUCCEEDED" then ret (Return_ true)
           else if st =? "FAILED" then ret (Return_ false)
           else sleep 30 ;;; ret Next
         else
           print (LogStatusNotFound response) ;;;
           sleep 30 ;;; ret Next
     | None =>
         print (LogStatusNotFound response) ;;;
         sleep 30 ;;; ret Next
     end)
    is_ClientError
    (fun e =>
       print (LogErrorCheckingStatus e) ;;;
       sleep 30 ;;; ret Next).

(** [for attempt in range(attempts)] around [poll_once], then
    [return False]. *)
Fixpoint poll_loop (client : Client) (operation_id : string) (attempts : nat)
    : M bool :=
  match attempts with
  | O => ret false
  | S remaining =>
      s <- poll_once client operation_id ;;
      match s with
      | Return_ b => ret b
      | Next => poll_loop client operation_id remaining
      end
  end.

Definition poll_budget : nat := 40.

Definition check_operation_status (client : Client) (operation_id : string)
    : M bool :=
  poll_loop client operation_id poll_budget.

(** *** Conflict backoff loop *)

Definition timed_out (ou_id_ : string) : exn :=
  Exception_ ("Timed out waiting for in-progress operations for OU " ++ ou_id_).

Definition attempt_once (client : Client)
    (ou_id_ ou_arn_ baseline_identifier identity_center_arn : string)
    : M (step (option string)) :=
  try_except
    (operation_id <- enable_baseline client ou_id_ ou_arn_
                       baseline_identifier identity_center_arn ;;
     if truthy operation_id && negb (opt_eqb operation_id IN_PROGRESS)
     then ret (Return_ operation_id)
     else if is_None operation_id then ret (Return_ None)
     else sleep 60 ;;; ret Next)
    is_Exception
    (fun e =>
       print (LogErrorWaiting e) ;;;
       sleep 60 ;;; ret Next).

Fixpoint attempt_loop (client : Client)
    (ou_id_ ou_arn_ baseline_identifier identity_center_arn : string)
    (attempts : nat) : M (option string) :=
  match attempts with
  | O => raise (timed_out ou_id_)
  | S remaining =>
      s <- attempt_once client ou_id_ ou_arn_
             baseline_identifier identity_center_arn ;;
      match s with
      | Return_ v => ret v
      | Next =>
          attempt_loop client ou_id_ ou_arn_
            baseline_identifier identity_center_arn remaining
      end
  end.

Definition attempt_budget : nat := 20.

Definition wait_for_in_progress_operations (client : Client)
    (ou_id_ ou_arn_ baseline_identifier identity_center_arn : string)
    : M (option string) :=
  attempt_loop client ou_id_ ou_arn_ baseline_identifier identity_center_arn
    attempt_budget.

(** *** OU registrar *)

Definition register_ou (client : Client)
    (ou_id_ ou_arn_ baseline_identifier identity_center_arn : string)
    : M bool :=
  print (LogRegistering ou_id_) ;;;
  try_except
    (operation_id <- wait_for_in_progress_operations client ou_id_ ou_arn_
                       baseline_identifier identity_center_arn ;;
     match operation_id with
     | Some id =>
         if str_truthy id then
           ok <- check_operation_status client id ;;
           if ok then
             print (LogSuccessfullyRegistered ou_id_) ;;; ret true
           else
             print (LogFailedToRegister ou_id_) ;;; ret false
         else
           print (LogSkipped ou_id_) ;;; ret true
     | None =>
         print (LogSkipped ou_id_) ;;; ret true
     end)
    is_Exception
    (fun e =>
       print (LogErrorRegistering ou_id_ e) ;;;
       ret false).

(** *** Batch driver *)

(** The [for ou in ous] loop of [register_ous], over any registrar. *)
Fixpoint register_each (registrar : OU -> M bool) (ous : list OU) : M unit :=
  match ous with
  | [] => ret tt
  | ou :: rest =>
      success <- registrar ou ;;
      if success then register_each registrar rest
      else
        print (LogStopping (ou_id ou)) ;;;
        sys_exit 1
  end.

(** [register_ous] from its [try] on: [boto3_client region] is the client
    that [boto3.client('controltower', region_name=region)] has built. *)
Definition register_ous (boto3_client : string -> Client)
    (region : string) (ous : list OU) : M unit :=
  let client := boto3_client region in
  ids <- try_except
           (baseline_identifier <- get_baseline_identifier client ;;
            identity_center_arn <-
              get_identity_center_enabled_baseline_arn client ;;
            ret (baseline_identifier, identity_center_arn))
           is_Exception
           (fun e =>
              print (LogErrorBaselineInfo e) ;;;
              sys_exit 1) ;;
  register_each
    (fun ou =>
       register_ou client (ou_id ou) (ou_arn ou) (fst ids) (snd ids))
    ous.

(** The whole of [register_ous], with the construction of the client on its
    first line: [boto3_client region] is what
    [boto3.client('controltower', region_name=region)] does, the client or
    the exception it raises (no region, a region name that is not valid).
    The call stands before the [try], so its exception leaves the
    function. *)
Definition register_ous_whole (boto3_client : string -> outcome Client)
    (region : string) (ous : list OU) : M unit :=
  client <- (fun w => (of_outcome (boto3_client region), w)) ;;
  register_ous (fun _ => client) region ous.

(** * Vocabulary of the properties *)

(** The result of a computation and the world it leaves. *)
Definition result_of {A} (m : M A) (w : World) : result A := fst (m w).

Definition world_after {A} (m : M A) (w : World) : World := snd (m w).

(** The world right after the enable call of the client. *)
Definition enable_called (a : EnableArgs) (w : World) : World :=
  {| trace := trace w ++ [CallEnableBaseline a];
     enable_calls := S (enable_calls w);
     operation_calls := operation_calls w;
     slept := slept w |}.

(** What one answer to [get_baseline_operation] means for the poller: the
    status is ['SUCCEEDED'], it is ['FAILED'], the poll is not terminal (any
    other status, no status, or an error response of the service), or the
    call raised something [except ClientError] does not catch. *)
Inductive verdict : Type :=
| Succeeded
| Failed
| Pending
| Aborts (e : exn).

Definition verdict_of (answer : outcome OperationResponse) : verdict :=
  match answer with
  | inl response =>
      match get_status response with
      | Some st =>
          if st =? "SUCCEEDED" then Succeeded
          else if st =? "FAILED" then Failed
          else Pending
      | None => Pending
      end
  | inr (ClientError _ _) => Pending
  | inr (Exception_ message) => Aborts (Exception_ message)
  end.

(** How the poller ends on a verdict that stops it. *)
Definition ends_with (v : verdict) : result bool :=
  match v with
  | Succeeded => Returns true
  | Failed => Returns false
  | Pending => Returns false
  | Aborts e => Raises e
  end.

(** The answer to the k-th poll counted from world [w]. *)
Definition poll_at (client : Client) (operation_id : string)
    (w : World) (k : nat) : outcome OperationResponse :=
  get_baseline_operation client (operation_calls w + k) operation_id.

(** [w'] is [w] after [k] more polls and [s] more seconds of sleep, with no
    enable call in between. *)
Definition polled (k s : nat) (w w' : World) : Prop :=
  operation_calls w' = operation_calls w + k
  /\ slept w' = slept w + s
  /\ enable_calls w' = enable_calls w.

(** The world after [time.sleep(seconds)]. *)
Definition asleep (seconds : nat) (w : World) : World :=
  world_after (sleep seconds) w.

(** [w'] is [w] after [k] more enable calls and [s] more seconds of sleep,
    with no poll in between. *)
Definition attempted (k s : nat) (w w' : World) : Prop :=
  enable_calls w' = enable_calls w + k
  /\ slept w' = slept w + s
  /\ operation_calls w' = operation_calls w.

(** An operation identifier the backoff loop hands back: a string that is
    true in Python and differs from the ['IN_PROGRESS'] marker. *)
Definition normal_operation_id (id : string) : Prop :=
  id <> "" /\ id <> "IN_PROGRESS".

(** The world in which attempt number [i + 1] of the backoff loop is made,
    counted from [w]. *)
Fixpoint after_attempts (client : Client)
    (ou_id_ ou_arn_ baseline_identifier identity_center_arn : string)
    (i : nat) (w : World) : World :=
  match i with
  | O => w
  | S i' =>
      after_attempts client ou_id_ ou_arn_ baseline_identifier
        identity_center_arn i'
        (world_after
           (attempt_once client ou_id_ ou_arn_ baseline_identifier
              identity_center_arn) w)
  end.

(** The enable attempt made in [w] sends the backoff loop to its next
    round. *)
Definition retries (client : Client)
    (ou_id_ ou_arn_ baseline_identifier identity_center_arn : string)
    (w : World) : Prop :=
  let enable :=
    enable_baseline client ou_id_ ou_arn_ baseline_identifier
      identity_center_arn in
  result_of enable w = Returns (Some IN_PROGRESS)
  \/ exists e, result_of enable w = Raises e.

(** An error of the enable call that is neither of the two conflicts the
    enabler knows. *)
Definition unclassified (e : exn) : Prop :=
  match e with
  | ClientError code message =>
      code <> "ConflictException"
      \/ (contains "already governed" message = false
          /\ contains "another operation is in progress" message = false)
  | Exception_ _ => True
  end.

(** The registrar called on every OU of a list, in order, whatever it
    answers: the results and the world left. *)
Fixpoint invoke_all (registrar : OU -> M bool) (ous : list OU) (w : World)
    : list (result bool) * World :=
  match ous with
  | [] => ([], w)
  | ou :: rest =>
      let (r, w1) := registrar ou w in
      let (rs, w2) := invoke_all registrar rest w1 in
      (r :: rs, w2)
  end.

(** What the backoff loop may hand back: [None] or a normal operation identifier. *)
Definition handed_back (v : option string) : Prop :=
  v = None \/ exists id, v = Some id /\ normal_operation_id id.

(** The line [register_ou] ends with tells the boolean it returns. *)
Definition verdict_line (ou : string) (line : log_line) (b : bool) : Prop :=
  match line with
  | LogSuccessfullyRegistered ou' => ou' = ou /\ b = true
  | LogSkipped ou' => ou' = ou /\ b = true
  | LogFailedToRegister ou' => ou' = ou /\ b = false
  | LogErrorRegistering ou' _ => ou' = ou /\ b = false
  | _ => False
  end.

(** [w'] has the events of [w], in place, followed by events that all
    satisfy [Q]. *)
Definition grows (Q : event -> Prop) (w w' : World) : Prop :=
  exists added,
    trace w' = (trace w ++ added)%list /\ Forall Q added.

(** A line other than the one [register_ou] prints when it is entered. *)
Definition not_registering (line : log_line) : Prop :=
  match line with
  | LogRegistering _ => False
  | _ => True
  end.

(** An event that is not the entry of [register_ou]. *)
Definition quiet (ev : event) : Prop :=
  match ev with
  | Printed line => not_registering line
  | _ => True
  end.

(** What a run may do once its two identifiers are resolved: print, sleep,
    poll, and send the enable request of one of its OUs; no list call. *)
Definition run_event (ous : list OU)
    (baseline_identifier identity_center_arn : string) (ev : event) : Prop :=
  match ev with
  | CallListBaselines => False
  | CallListEnabledBaselines => False
  | CallEnableBaseline args =>
      exists ou,
        In ou ous
        /\ args = enable_args (ou_arn ou) baseline_identifier
                    identity_center_arn
  | _ => True
  end.

(** ** OU records as [json.loads] gives them *)

(** A JSON object with string values: the value under each key it has. *)
Definition dict : Type := string -> option string.

(** [KeyError(key)], whose message is the quoted key. *)
Definition KeyError (key : string) : exn := Exception_ ("'" ++ key ++ "'").

(** [d[key]] *)
Definition getitem (d : dict) (key : string) : M string :=
  fun w =>
    match d key with
    | Some v => (Returns v, w)
    | None => (Raises (KeyError key), w)
    end.

(** The [for ou in ous] loop of [register_ous] on such objects, with the
    two subscriptions [ou['id']] and [ou['arn']] of its body. *)
Fixpoint register_each_record (client : Client)
    (baseline_identifier identity_center_arn : string) (ous : list dict)
    : M unit :=
  match ous with
  | [] => ret tt
  | ou :: rest =>
      ou_id_ <- getitem ou "id" ;;
      ou_arn_ <- getitem ou "arn" ;;
      success <- register_ou client ou_id_ ou_arn_ baseline_identifier
                   identity_center_arn ;;
      if success then
        register_each_record client baseline_identifier identity_center_arn
          rest
      else
        print (LogStopping ou_id_) ;;;
        sys_exit 1
  end.

Definition register_ous_records (boto3_client : string -> Client)
    (region : string) (ous : list dict) : M unit :=
  let client := boto3_client region in
  ids <- try_except
           (baseline_identifier <- get_baseline_identifier client ;;
            identity_center_arn <-
              get_identity_center_enabled_baseline_arn client ;;
            ret (baseline_identifier, identity_center_arn))
           is_Exception
           (fun e =>
              print (LogErrorBaselineInfo e) ;;;
              sys_exit 1) ;;
  register_each_record client (fst ids) (snd ids) ous.

(** The object has the two keys of the record, with its values. *)
Definition holds (d : dict) (ou : OU) : Prop :=
  d "id" = Some (ou_id ou) /\ d "arn" = Some (ou_arn ou).

(** The first key the loop asks for that the object lacks. *)
Definition missing_key (d : dict) : option string :=
  match d "id", d "arn" with
  | None, _ => Some "id"
  | Some _, None => Some "arn"
  | Some _, Some _ => None
  end.

(** * Concrete clients *)

Module Samples.

(** The k-th answer of a scripted operation; [otherwise] once the script
    is used up. *)
Definition script {A : Type} (answers : list (outcome A))
    (otherwise : outcome A) (k : nat) : outcome A :=
  nth k answers otherwise.

Definition audit_baseline : Baseline :=
  {| baseline_name := "AuditBaseline";
     baseline_arn := "arn:aws:controltower:us-east-1::baseline/4T4HA1KMO10S6311" |}.

Definition control_tower_baseline : Baseline :=
  {| baseline_name := "AWSControlTowerBaseline";
     baseline_arn := "arn:aws:controltower:us-east-1::baseline/17BSJV3IGJ2QSGA2" |}.

Definition control_tower_duplicate : Baseline :=
  {| baseline_name := "AWSControlTowerBaseline";
     baseline_arn := "arn:aws:controltower:us-east-1::baseline/DUPLICATE" |}.

Definition baselines : list Baseline :=
  [audit_baseline; control_tower_baseline; control_tower_duplicate].

Definition unmarked_enabled : EnabledBaseline :=
  {| enabled_arn := "enabledbaseline/XOM12BEL4YD578CQ2" |}.

Definition identity_center_enabled : EnabledBaseline :=
  {| enabled_arn :=
       "arn:aws:controltower:us-east-1:123456789012:enabledbaseline/XALULM96QHI525UOC" |}.

Definition enabled : list EnabledBaseline :=
  [unmarked_enabled; identity_center_enabled].

Definition accepted (id : string) : outcome EnableResponse :=
  inl {| operationIdentifier := Some id |}.

Definition accepted_without_id : outcome EnableResponse :=
  inl {| operationIdentifier := None |}.

Definition already_governed : outcome EnableResponse :=
  inr (ClientError "ConflictException"
         "The target ou-1 is already governed by Control Tower").

Definition conflict_in_progress : outcome EnableResponse :=
  inr (ClientError "ConflictException"
         "Cannot enable baseline: another operation is in progress").

Definition throttling : exn :=
  ClientError "ThrottlingException" "Rate exceeded".

Definition answered (st : string) : outcome OperationResponse :=
  inl {| baselineOperation := Some {| status := Some st |} |}.

Definition pending : outcome OperationResponse := answered "IN_PROGRESS".

Definition succeeded : outcome OperationResponse := answered "SUCCEEDED".

(** A client with a script for the enable calls and one for the polls. *)
Definition scripted
    (enables : list (outcome EnableResponse))
    (enable_otherwise : outcome EnableResponse)
    (polls : list (outcome OperationResponse))
    (poll_otherwise : outcome OperationResponse) : Client :=
  {| list_baselines := inl baselines;
     list_enabled_baselines := inl enabled;
     enable_baseline_api := fun k _ => script enables enable_otherwise k;
     get_baseline_operation := fun k _ => script polls poll_otherwise k |}.

Definition ou1 : OU := {| ou_id := "ou-1"; ou_arn := "arn:aws:organizations::123456789012:ou/o-a/ou-1" |}.
Definition ou2 : OU := {| ou_id := "ou-2"; ou_arn := "arn:aws:organizations::123456789012:ou/o-a/ou-2" |}.
Definition ou3 : OU := {| ou_id := "ou-3"; ou_arn := "arn:aws:organizations::123456789012:ou/o-a/ou-3" |}.

Definition baseline_id : string := baseline_arn control_tower_baseline.

Definition identity_arn : string := enabled_arn identity_center_enabled.

(** Two conflicts in progress, then an accepted request whose operation
    is pending twice and then succeeds. *)
Definition busy_twice : Client :=
  scripted [conflict_in_progress; conflict_in_progress; accepted "op-1"]
    conflict_in_progress [pending; pending; succeeded] pending.

Definition always_busy : Client :=
  scripted [] conflict_in_progress [] pending.

Definition governed : Client :=
  scripted [already_governed] conflict_in_progress [] pending.

Definition no_identifier : Client :=
  scripted [accepted_without_id] conflict_in_progress [] pending.

Definition throttled_once : Client :=
  scripted [inr throttling; accepted "op-1"] conflict_in_progress
    [succeeded] pending.

(** The first enable call is accepted and its operation succeeds; every
    later enable call is throttled. *)
Definition throttled_after_first : Client :=
  scripted [accepted "op-1"] (inr throttling) [succeeded] pending.

(** A control plane that lacks both baselines the run needs. *)
Definition unprepared : Client :=
  {| list_baselines := inl [audit_baseline];
     list_enabled_baselines := inl [unmarked_enabled];
     enable_baseline_api := fun _ _ => conflict_in_progress;
     get_baseline_operation := fun _ _ => pending |}.

Definition enable_for (client : Client) : M (option string) :=
  enable_baseline client (ou_id ou1) (ou_arn ou1) baseline_id identity_arn.

Definition wait_for (client : Client) : M (option string) :=
  wait_for_in_progress_operations client (ou_id ou1) (ou_arn ou1)
    baseline_id identity_arn.

Definition register_for (client : Client) : M bool :=
  register_ou client (ou_id ou1) (ou_arn ou1) baseline_id identity_arn.

(** The identifiers of the OUs [register_ou] was entered for, in order. *)
Fixpoint registering (events : list event) : list string :=
  match events with
  | [] => []
  | Printed (LogRegistering ou) :: rest => ou :: registering rest
  | _ :: rest => registering rest
  end.

(** The operation is pending once, then the poll fails on the client's side
    (no answer of the service). *)
Definition connection_lost : exn :=
  Exception_ "Could not connect to the endpoint URL".

Definition poll_breaks : Client :=
  scripted [accepted "op-1"] conflict_in_progress
    [pending; inr connection_lost] pending.

(** Every OU is already governed. *)
Definition all_governed : Client :=
  scripted [] already_governed [] pending.

(** The control plane cannot be reached for the first list call. *)
Definition unreachable : Client :=
  {| list_baselines := inr connection_lost;
     list_enabled_baselines := inl enabled;
     enable_baseline_api := fun _ _ => conflict_in_progress;
     get_baseline_operation := fun _ _ => pending |}.

(** The governance baseline exists, no enabled baseline has the marker. *)
Definition without_identity_center : Client :=
  {| list_baselines := inl baselines;
     list_enabled_baselines := inl [unmarked_enabled];
     enable_baseline_api := fun _ _ => conflict_in_progress;
     get_baseline_operation := fun _ _ => pending |}.

(** The JSON object of an OU record, with a key the program does not
    read. *)
Definition as_dict (ou : OU) : dict :=
  fun key =>
    if key =? "id" then Some (ou_id ou)
    else if key =? "arn" then Some (ou_arn ou)
    else if key =? "name" then Some "Workloads"
    else None.

(** An object without the ['arn'] key. *)
Definition without_arn : dict :=
  fun key => if key =? "id" then Some "ou-2" else None.

(** The first request is accepted with an empty operation identifier. *)
Definition empty_identifier_once : Client :=
  scripted [accepted ""; accepted "op-2"] conflict_in_progress
    [succeeded] pending.

(** Enabled baselines of the audit and log-archive accounts; none of them
    is the identity-center baseline. *)
Definition audit_enabled : EnabledBaseline :=
  {| enabled_arn :=
       "arn:aws:controltower:us-east-1:123456789012:enabledbaseline/XAJNUWO6SABMHQH5A" |}.

Definition log_archive_enabled : EnabledBaseline :=
  {| enabled_arn :=
       "arn:aws:controltower:us-east-1:123456789012:enabledbaseline/XOJ7BSR3HZ5BKJ1YD" |}.

Definition account_baselines_only : Client :=
  {| list_baselines := inl baselines;
     list_enabled_baselines := inl [audit_enabled; log_archive_enabled];
     enable_baseline_api := fun _ _ => conflict_in_progress;
     get_baseline_operation := fun _ _ => pending |}.

(** The first poll fails on the client's side, the second would answer
    ['SUCCEEDED']. *)
Definition breaks_then_succeeds : Client :=
  scripted [accepted "op-1"] conflict_in_progress
    [inr connection_lost; succeeded] pending.

(** Two conflicts in progress, then a request that is accepted with an
    answer that has no operation identifier. *)
Definition no_identifier_after_two : Client :=
  scripted [conflict_in_progress; conflict_in_progress; accepted_without_id]
    conflict_in_progress [] pending.

(** [boto3.client] knows one region. *)
Definition invalid_region : exn :=
  Exception_ "Provided region_name doesn't match a supported format.".

Definition in_us_east_1 (client : Client) (region : string)
    : outcome Client :=
  if region =? "us-east-1" then inl client else inr invalid_region.

End Samples.

Import Samples.

(** * Properties *)

(** ** Baseline resolver *)

Lemma first_control_tower_baseline_absent (baselines : list Baseline) :
  (forall b, In b baselines -> baseline_name b <> "AWSControlTowerBaseline") ->
  first_control_tower_baseline baselines = Raises not_found_baseline.
Proof.
  induction baselines as [| b rest IH]; intros Hnone; simpl.
  - reflexivity.
  - assert (Hb : baseline_name b <> "AWSControlTowerBaseline")
      by (apply Hnone; now left).
    apply String.eqb_neq in Hb. rewrite Hb.
    apply IH. intros b' Hin. apply Hnone. now right.
Qed.

Lemma first_control_tower_baseline_skip (before rest : list Baseline) :
  (forall b, In b before -> baseline_name b <> "AWSControlTowerBaseline") ->
  first_control_tower_baseline (before ++ rest)
  = first_control_tower_baseline rest.
Proof.
  induction before as [| b before' IH]; intros Hnone; simpl.
  - reflexivity.
  - assert (Hb : baseline_name b <> "AWSControlTowerBaseline")
      by (apply Hnone; now left).
    apply String.eqb_neq in Hb. rewrite Hb.
    apply IH. intros b' Hin. apply Hnone. now right.
Qed.

(** C9. Whatever list of baselines the control plane answers with,
    [get_baseline_identifier] raises "AWSControlTowerBaseline not found" when
    no entry of the list is named exactly "AWSControlTowerBaseline", and
    otherwise returns the [arn] of the first entry with that name, whatever
    comes after it (other entries, duplicates of the name). *)
Theorem get_baseline_identifier_first_match
    (client : Client) (baselines : list Baseline) (w : World) :
  list_baselines client = inl baselines ->
  ((forall b, In b baselines -> baseline_name b <> "AWSControlTowerBaseline") ->
   result_of (get_baseline_identifier client) w = Raises not_found_baseline)
  /\
  (forall before b after,
      baselines = (before ++ b :: after)%list ->
      (forall b', In b' before ->
                  baseline_name b' <> "AWSControlTowerBaseline") ->
      baseline_name b = "AWSControlTowerBaseline" ->
      result_of (get_baseline_identifier client) w = Returns (baseline_arn b)).
Proof.
  intros Hlist.
  unfold result_of, get_baseline_identifier, bind, call_list_baselines.
  rewrite Hlist. simpl. split.
  - intros Hnone. now apply first_control_tower_baseline_absent.
  - intros before b after -> Hbefore Hname.
    rewrite first_control_tower_baseline_skip by exact Hbefore.
    simpl. apply String.eqb_eq in Hname. now rewrite Hname.
Qed.

(** ** Baseline enabler *)

Section Enabler.

Variable client : Client.
Variables ou_id_ ou_arn_ baseline_identifier identity_center_arn : string.

Local Abbreviation args :=
  (enable_args ou_arn_ baseline_identifier identity_center_arn).

(** [enable_baseline], one equation per branch of the source. *)
Lemma enable_baseline_unfold (w : World) :
  enable_baseline client ou_id_ ou_arn_ baseline_identifier
    identity_center_arn w
  = let w1 := enable_called args w in
    match enable_baseline_api client (enable_calls w) args with
    | inl response =>
        (Returns (operationIdentifier response),
         record (Printed (LogEnableResponse response)) w1)
    | inr (ClientError code message) =>
        let e := ClientError code message in
        let w2 := record (Printed (LogClientErrorInEnable e)) w1 in
        if code =? "ConflictException" then
          if contains "already governed" message then
            (Returns None, record (Printed (LogAlreadyRegistered ou_id_)) w2)
          else if contains "another operation is in progress" message then
            (Returns (Some IN_PROGRESS),
             record (Printed (LogAnotherOperation ou_id_)) w2)
          else (Raises e, w2)
        else (Raises e, w2)
    | inr (Exception_ message) => (Raises (Exception_ message), w1)
    end.
Proof.
  unfold enable_baseline, try_except, bind, call_enable_baseline, print, ret,
    raise, enable_called.
  destruct (enable_baseline_api client (enable_calls w) _)
    as [response | [code message | message]]; cbn; try reflexivity.
  destruct (code =? "ConflictException"); try reflexivity.
  destruct (contains "already governed" message); try reflexivity.
  destruct (contains "another operation is in progress" message);
    reflexivity.
Qed.

End Enabler.

(** C3. [enable_baseline] classifies the answer of the control plane in the
    order of the source: a [ConflictException] whose message contains
    "already governed" gives [None] (already registered); failing that, a
    [ConflictException] whose message contains "another operation is in
    progress" gives ['IN_PROGRESS']; an accepted request gives the identifier
    of the new operation; every other [ClientError] is raised again. *)
Theorem enable_baseline_classifies
    (client : Client)
    (ou_id_ ou_arn_ baseline_identifier identity_center_arn : string)
    (w : World) :
  let answer :=
    enable_baseline_api client (enable_calls w)
      (enable_args ou_arn_ baseline_identifier identity_center_arn) in
  let outcome_ :=
    result_of
      (enable_baseline client ou_id_ ou_arn_ baseline_identifier
         identity_center_arn) w in
  (forall message,
      answer = inr (ClientError "ConflictException" message) ->
      contains "already governed" message = true ->
      outcome_ = Returns None)
  /\
  (forall message,
      answer = inr (ClientError "ConflictException" message) ->
      contains "already governed" message = false ->
      contains "another operation is in progress" message = true ->
      outcome_ = Returns (Some "IN_PROGRESS"))
  /\
  (forall response id,
      answer = inl response ->
      operationIdentifier response = Some id ->
      outcome_ = Returns (Some id))
  /\
  (forall code message,
      answer = inr (ClientError code message) ->
      code <> "ConflictException"
      \/ (contains "already governed" message = false
          /\ contains "another operation is in progress" message = false) ->
      outcome_ = Raises (ClientError code message)).
Proof.
  intros answer outcome_. subst answer outcome_. unfold result_of.
  rewrite enable_baseline_unfold. cbv zeta.
  repeat split.
  - intros message -> Hgov. rewrite String.eqb_refl, Hgov. reflexivity.
  - intros message -> Hgov Hother.
    rewrite String.eqb_refl, Hgov, Hother. reflexivity.
  - intros response id -> Hid. simpl. now rewrite Hid.
  - intros code message -> [Hcode | [Hgov Hother]].
    + apply String.eqb_neq in Hcode. now rewrite Hcode.
    + rewrite Hgov, Hother. now destruct (code =? "ConflictException").
Qed.

(** Where the message of a [ConflictException] carries both phrases, the
    first test of the source decides: the OU counts as already registered. *)
Example enable_baseline_governed_first :
  result_of
    (enable_for
       (scripted
          [inr (ClientError "ConflictException"
                  "already governed; another operation is in progress")]
          conflict_in_progress [] pending))
    initial_world
  = Returns None.
Proof.
  vm_compute. reflexivity.
Qed.

(** ** Operation poller *)

Section Poller.

Variable client : Client.
Variable operation_id : string.

Local Abbreviation poll_at := (poll_at client operation_id).

Lemma poll_once_verdict (w : World) :
  exists w',
    poll_once client operation_id w
    = (match verdict_of (poll_at w 0) with
       | Succeeded => Returns (Return_ true)
       | Failed => Returns (Return_ false)
       | Pending => Returns Next
       | Aborts e => Raises e
       end, w')
    /\ polled 1 (match verdict_of (poll_at w 0) with
                 | Pending => 30
                 | _ => 0
                 end) w w'.
Proof.
  unfold poll_at, polled. rewrite Nat.add_0_r.
  unfold poll_once, try_except, bind, call_get_baseline_operation, print,
    sleep, ret, record, verdict_of.
  destruct (get_baseline_operation client (operation_calls w) operation_id)
    as [response | [code message | message]]; cbn.
  - destruct (get_status response) as [st |]; cbn.
    + unfold str_truthy.
      destruct (st =? "SUCCEEDED") eqn:Hs.
      * apply String.eqb_eq in Hs. subst st. cbn.
        eexists; split; [reflexivity | cbn; lia].
      * destruct (st =? "FAILED") eqn:Hf.
        -- apply String.eqb_eq in Hf. subst st. cbn.
           eexists; split; [reflexivity | cbn; lia].
        -- destruct (st =? ""); cbn; rewrite ?Hs, ?Hf;
             eexists; (split; [reflexivity | cbn; lia]).
    + eexists; split; [reflexivity | cbn; lia].
  - eexists; split; [reflexivity | cbn; lia].
  - eexists; split; [reflexivity | cbn; lia].
Qed.

Lemma poll_at_shift (w w' : World) (j : nat) :
  operation_calls w' = operation_calls w + 1 ->
  poll_at w' j = poll_at w (S j).
Proof.
  intros H. unfold poll_at. rewrite H. f_equal. lia.
Qed.

(** The loop stops at the first poll whose verdict is not [Pending]. *)
Lemma poll_loop_stops (n : nat) :
  forall (k : nat) (w : World),
    k < n ->
    (forall j, j < k -> verdict_of (poll_at w j) = Pending) ->
    verdict_of (poll_at w k) <> Pending ->
    exists w',
      poll_loop client operation_id n w
      = (ends_with (verdict_of (poll_at w k)), w')
      /\ polled (S k) (30 * k) w w'.
Proof.
  induction n as [| n IH]; intros k w Hk Hbefore Hstop; [lia |].
  destruct (poll_once_verdict w) as (w1 & Hstep & Hc1 & Hs1 & He1).
  cbn [poll_loop]. unfold bind. rewrite Hstep.
  destruct k as [| k].
  - destruct (verdict_of (poll_at w 0)); try contradiction;
      (eexists; split; [reflexivity | unfold polled; lia]).
  - rewrite (Hbefore 0) in * by lia.
    destruct (IH k w1) as (w2 & Hloop & Hc2 & Hs2 & He2).
    + lia.
    + intros j Hj. rewrite (poll_at_shift w w1 j Hc1). apply Hbefore. lia.
    + now rewrite (poll_at_shift w w1 k Hc1).
    + rewrite (poll_at_shift w w1 k Hc1) in Hloop.
      exists w2. split; [exact Hloop | unfold polled; lia].
Qed.

(** With only [Pending] polls the loop uses its whole budget. *)
Lemma poll_loop_exhausts (n : nat) :
  forall w : World,
    (forall j, j < n -> verdict_of (poll_at w j) = Pending) ->
    exists w',
      poll_loop client operation_id n w = (Returns false, w')
      /\ polled n (30 * n) w w'.
Proof.
  induction n as [| n IH]; intros w Hall.
  - exists w. split; [reflexivity | unfold polled; lia].
  - destruct (poll_once_verdict w) as (w1 & Hstep & Hc1 & Hs1 & He1).
    cbn [poll_loop]. unfold bind. rewrite Hstep.
    rewrite (Hall 0) in * by lia.
    destruct (IH w1) as (w2 & Hloop & Hc2 & Hs2 & He2).
    + intros j Hj. rewrite (poll_at_shift w w1 j Hc1). apply Hall. lia.
    + exists w2. split; [exact Hloop | unfold polled; lia].
Qed.

End Poller.

(** Among the first [n] verdicts either all are [Pending] or there is a
    first one that is not. *)
Lemma first_stop (f : nat -> verdict) (n : nat) :
  (forall j, j < n -> f j = Pending)
  \/ exists k, k < n /\ (forall j, j < k -> f j = Pending) /\ f k <> Pending.
Proof.
  induction n as [| n [Hall | (k & Hk & Hbefore & Hstop)]].
  - left. intros j Hj. lia.
  - assert (Hn : f n = Pending \/ f n <> Pending)
      by (destruct (f n); (now left) || (right; discriminate)).
    destruct Hn as [Hn | Hn].
    + left. intros j Hj.
      destruct (Nat.eq_dec j n) as [-> | Hne]; [exact Hn | apply Hall; lia].
    + right. exists n. repeat split; [lia | | exact Hn].
      intros j Hj. now apply Hall.
  - right. exists k. repeat split; [lia | exact Hbefore | exact Hstop].
Qed.

(** C5 (as the code has it). For every sequence of answers to the polls
    of an operation, [check_operation_status] returns [True] exactly when
    some poll among the first 40 answers ['SUCCEEDED'], no earlier poll
    answered ['FAILED'] and no earlier poll raised an exception other than a
    [ClientError], which leaves the poller at once.  It returns at the first
    terminal status, after one call per poll up to that one and 30 seconds
    of sleep per earlier poll; so the sequence pending, pending, succeeded
    gives [True] after exactly 3 polls.  Forty polls that are not terminal
    (another status, no status, a [ClientError]) give [False]. *)
Theorem check_operation_status_verdict
    (client : Client) (operation_id : string) (w : World) :
  let poll k := verdict_of (poll_at client operation_id w k) in
  let outcome_ := result_of (check_operation_status client operation_id) w in
  let w' := world_after (check_operation_status client operation_id) w in
  (outcome_ = Returns true <->
   exists k, k < 40 /\ poll k = Succeeded
             /\ forall j, j < k ->
                  poll j <> Failed /\ forall e, poll j <> Aborts e)
  /\
  (forall k, k < 40 ->
     (forall j, j < k -> poll j = Pending) ->
     poll k = Succeeded \/ poll k = Failed ->
     outcome_ = Returns (match poll k with Succeeded => true | _ => false end)
     /\ operation_calls w' = operation_calls w + (k + 1)
     /\ slept w' = slept w + 30 * k)
  /\
  (poll 0 = Pending -> poll 1 = Pending -> poll 2 = Succeeded ->
   outcome_ = Returns true /\ operation_calls w' = operation_calls w + 3)
  /\
  ((forall k, k < 40 -> poll k = Pending) ->
   outcome_ = Returns false /\ operation_calls w' = operation_calls w + 40).
Proof.
  intros poll outcome_ w'.
  subst outcome_ w'. unfold result_of, world_after, check_operation_status,
    poll_budget.
  assert (Hstops :
    forall k, k < 40 ->
      (forall j, j < k -> poll j = Pending) ->
      poll k <> Pending ->
      fst (poll_loop client operation_id 40 w) = ends_with (poll k)
      /\ operation_calls (snd (poll_loop client operation_id 40 w))
         = operation_calls w + (k + 1)
      /\ slept (snd (poll_loop client operation_id 40 w))
         = slept w + 30 * k).
  { intros k Hk Hbefore Hstop.
    destruct (poll_loop_stops client operation_id 40 k w Hk
                Hbefore Hstop) as (w1 & Hrun & Hc & Hs & _).
    rewrite Hrun. cbn [fst snd]. repeat split; [lia | exact Hs]. }
  assert (Hexhausts :
    (forall k, k < 40 -> poll k = Pending) ->
    fst (poll_loop client operation_id 40 w) = Returns false
    /\ operation_calls (snd (poll_loop client operation_id 40 w))
       = operation_calls w + 40).
  { intros Hall.
    destruct (poll_loop_exhausts client operation_id 40 w Hall)
      as (w1 & Hrun & Hc & _).
    rewrite Hrun. cbn [fst snd]. split; [reflexivity | exact Hc]. }
  split; [| split; [| split]].
  - split.
    + intros Htrue.
      destruct (first_stop poll 40) as [Hall | (k & Hk & Hbefore & Hstop)].
      * destruct (Hexhausts Hall) as [Hfalse _]. congruence.
      * destruct (Hstops k Hk Hbefore Hstop) as [Hend _].
        rewrite Htrue in Hend.
        exists k. split; [exact Hk |].
        destruct (poll k) eqn:Hpk; cbn in Hend; try discriminate;
          try contradiction.
        split; [reflexivity |].
        intros j Hj. rewrite (Hbefore j Hj). split; [discriminate |].
        intros e. discriminate.
    + intros (k & Hk & Hsucc & Hclean).
      destruct (first_stop poll (S k)) as [Hall | (k' & Hk' & Hbefore & Hstop)].
      * rewrite (Hall k) in Hsucc by lia. discriminate.
      * assert (Hsucc' : poll k' = Succeeded).
        { destruct (Nat.eq_dec k' k) as [-> | Hne]; [exact Hsucc |].
          destruct (Hclean k') as [Hnf Hna]; [lia |].
          destruct (poll k') eqn:Hpk'; try contradiction; try reflexivity.
          exfalso. now apply (Hna e). }
        destruct (Hstops k') as [Hend _]; [lia | exact Hbefore | exact Hstop |].
        rewrite Hend, Hsucc'. reflexivity.
  - intros k Hk Hbefore Hterm.
    destruct (Hstops k Hk Hbefore) as (Hend & Hc & Hs).
    { destruct Hterm as [-> | ->]; discriminate. }
    rewrite Hend. repeat split; [| exact Hc | exact Hs].
    destruct Hterm as [-> | ->]; reflexivity.
  - intros H0 H1 H2.
    destruct (Hstops 2) as (Hend & Hc & _).
    + lia.
    + intros j Hj.
      destruct j as [| [| j]]; [exact H0 | exact H1 | lia].
    + rewrite H2. discriminate.
    + rewrite Hend, H2. split; [reflexivity | exact Hc].
  - exact Hexhausts.
Qed.

(** ** Conflict backoff loop *)

Section Backoff.

Variable client : Client.
Variables ou_id_ ou_arn_ baseline_identifier identity_center_arn : string.

Local Abbreviation enable :=
  (enable_baseline client ou_id_ ou_arn_ baseline_identifier
     identity_center_arn).

Local Abbreviation attempt :=
  (attempt_once client ou_id_ ou_arn_ baseline_identifier
     identity_center_arn).

Local Abbreviation loop :=
  (attempt_loop client ou_id_ ou_arn_ baseline_identifier
     identity_center_arn).

Local Abbreviation after_attempts :=
  (after_attempts client ou_id_ ou_arn_ baseline_identifier
     identity_center_arn).

Local Abbreviation retries :=
  (retries client ou_id_ ou_arn_ baseline_identifier identity_center_arn).

Lemma enable_baseline_world (w : World) :
  attempted 1 0 w (world_after enable w)
  /\ forall code, result_of enable w <> Exits code.
Proof.
  unfold world_after, result_of, attempted.
  rewrite enable_baseline_unfold. cbv zeta.
  destruct (enable_baseline_api client (enable_calls w) _)
    as [response | [code message | message]]; cbn.
  - repeat split; try lia. discriminate.
  - destruct (code =? "ConflictException");
      [destruct (contains "already governed" message);
       [| destruct (contains "another operation is in progress" message)]
      |]; cbn; (repeat split; try lia; discriminate).
  - repeat split; try lia. discriminate.
Qed.

(** One round of the loop, from what [enable_baseline] does. *)
Lemma attempt_once_unfold (w : World) :
  attempt w
  = match enable w with
    | (Returns v, w1) =>
        if truthy v && negb (opt_eqb v IN_PROGRESS)
        then (Returns (Return_ v), w1)
        else if is_None v then (Returns (Return_ None), w1)
        else (Returns Next, asleep 60 w1)
    | (Raises e, w1) =>
        (Returns Next, asleep 60 (record (Printed (LogErrorWaiting e)) w1))
    | (Exits code, w1) => (Exits code, w1)
    end.
Proof.
  unfold attempt_once, try_except, bind.
  destruct (enable w) as [[v | e | code] w1]; cbn; try reflexivity.
  destruct (truthy v && negb (opt_eqb v IN_PROGRESS)); [reflexivity |].
  destruct (is_None v); reflexivity.
Qed.

Lemma attempt_once_started (w : World) (id : string) :
  result_of enable w = Returns (Some id) ->
  normal_operation_id id ->
  attempt w = (Returns (Return_ (Some id)), world_after enable w).
Proof.
  unfold result_of, world_after. intros Hres [Hne Hnp].
  rewrite attempt_once_unfold.
  destruct (enable w) as [r w1]. cbn in *. subst r. cbn.
  unfold str_truthy, IN_PROGRESS.
  apply String.eqb_neq in Hne, Hnp. now rewrite Hne, Hnp.
Qed.

Lemma attempt_once_governed (w : World) :
  result_of enable w = Returns None ->
  attempt w = (Returns (Return_ None), world_after enable w).
Proof.
  unfold result_of, world_after. intros Hres.
  rewrite attempt_once_unfold.
  destruct (enable w) as [r w1]. cbn in *. now subst r.
Qed.

(** An attempt that answers ['IN_PROGRESS'] or raises is followed by a
    sleep of 60 seconds and the next round. *)
Lemma attempt_once_retries (w : World) :
  result_of enable w = Returns (Some IN_PROGRESS)
  \/ (exists e, result_of enable w = Raises e) ->
  exists w',
    attempt w = (Returns Next, w') /\ attempted 1 60 w w'.
Proof.
  destruct (enable_baseline_world w) as [(Hc & Hs & Ho) _].
  unfold result_of, world_after in *. intros Hres.
  rewrite attempt_once_unfold.
  destruct (enable w) as [r w1]. cbn in *.
  destruct Hres as [-> | [e ->]]; cbn;
    (eexists; split; [reflexivity | unfold attempted; cbn; lia]).
Qed.

Lemma attempt_loop_S (n : nat) (w : World) :
  loop (S n) w
  = match attempt w with
    | (Returns (Return_ v), w1) => (Returns v, w1)
    | (Returns Next, w1) => loop n w1
    | (Raises e, w1) => (Raises e, w1)
    | (Exits code, w1) => (Exits code, w1)
    end.
Proof.
  cbn [attempt_loop]. unfold bind.
  destruct (attempt_once _ _ _ _ _ w) as [[[v |] | e | code] w1];
    reflexivity.
Qed.

(** Rounds that all retry use up that much of the budget. *)
Lemma attempt_loop_retries (k : nat) :
  forall (n : nat) (w : World),
    (forall i, i < k -> retries (after_attempts i w)) ->
    loop (k + n) w = loop n (after_attempts k w)
    /\ attempted k (60 * k) w (after_attempts k w).
Proof.
  induction k as [| k IH]; intros n w Hall.
  - split; [reflexivity | unfold attempted; cbn; lia].
  - destruct (attempt_once_retries w (Hall 0 ltac:(lia)))
      as (w1 & Hstep & Hc & Hs & Ho).
    assert (Hw1 : world_after attempt w = w1)
      by (unfold world_after; now rewrite Hstep).
    cbn [Nat.add after_attempts]. rewrite attempt_loop_S, Hstep, Hw1.
    destruct (IH n w1) as (Hloop & Hc' & Hs' & Ho').
    + intros i Hi. specialize (Hall (S i) ltac:(lia)).
      cbn [after_attempts] in Hall. now rewrite Hw1 in Hall.
    + split; [exact Hloop | unfold attempted; lia].
Qed.

End Backoff.

(** C6. If the first [N] attempts of [wait_for_in_progress_operations] each
    get ['IN_PROGRESS'] from [enable_baseline], with [N] below the budget of
    20, and the next attempt gets a normal operation identifier, the loop
    returns that identifier after exactly [N] retries: [N + 1] enable calls
    and [N] sleeps of 60 seconds. *)
Theorem wait_for_in_progress_operations_returns_operation
    (client : Client)
    (ou_id_ ou_arn_ baseline_identifier identity_center_arn : string)
    (w : World) (N : nat) (id : string) :
  let enable :=
    enable_baseline client ou_id_ ou_arn_ baseline_identifier
      identity_center_arn in
  let at_attempt i :=
    after_attempts client ou_id_ ou_arn_ baseline_identifier
      identity_center_arn i w in
  let wait :=
    wait_for_in_progress_operations client ou_id_ ou_arn_ baseline_identifier
      identity_center_arn in
  N < 20 ->
  (forall i, i < N ->
             result_of enable (at_attempt i) = Returns (Some "IN_PROGRESS")) ->
  result_of enable (at_attempt N) = Returns (Some id) ->
  normal_operation_id id ->
  result_of wait w = Returns (Some id)
  /\ enable_calls (world_after wait w) = enable_calls w + (N + 1)
  /\ slept (world_after wait w) = slept w + 60 * N.
Proof.
  intros enable at_attempt wait HN Hbusy Hstart Hid.
  subst enable at_attempt wait. cbv beta in Hbusy, Hstart.
  unfold wait_for_in_progress_operations.
  unfold result_of at 1. unfold world_after at 1 2.
  replace attempt_budget with (N + S (19 - N))
    by (unfold attempt_budget; lia).
  destruct (attempt_loop_retries client ou_id_ ou_arn_ baseline_identifier
              identity_center_arn N (S (19 - N)) w)
    as (Hloop & Hc & Hs & _).
  { intros i Hi. left. now apply Hbusy. }
  rewrite Hloop, attempt_loop_S.
  rewrite (attempt_once_started client ou_id_ ou_arn_ baseline_identifier
             identity_center_arn _ id Hstart Hid).
  cbn [fst snd].
  destruct (enable_baseline_world client ou_id_ ou_arn_ baseline_identifier
              identity_center_arn
              (after_attempts client ou_id_ ou_arn_ baseline_identifier
                 identity_center_arn N w))
    as [(Hc1 & Hs1 & _) _].
  repeat split; lia.
Qed.

(** C7. If each of the 20 attempts of [wait_for_in_progress_operations] gets
    ['IN_PROGRESS'] from [enable_baseline] or an exception, the loop raises
    its timeout exception, after 20 enable calls and 20 sleeps of 60
    seconds. *)
Theorem wait_for_in_progress_operations_times_out
    (client : Client)
    (ou_id_ ou_arn_ baseline_identifier identity_center_arn : string)
    (w : World) :
  let enable :=
    enable_baseline client ou_id_ ou_arn_ baseline_identifier
      identity_center_arn in
  let at_attempt i :=
    after_attempts client ou_id_ ou_arn_ baseline_identifier
      identity_center_arn i w in
  let wait :=
    wait_for_in_progress_operations client ou_id_ ou_arn_ baseline_identifier
      identity_center_arn in
  (forall i, i < 20 ->
     result_of enable (at_attempt i) = Returns (Some "IN_PROGRESS")
     \/ exists e, result_of enable (at_attempt i) = Raises e) ->
  result_of wait w = Raises (timed_out ou_id_)
  /\ enable_calls (world_after wait w) = enable_calls w + 20
  /\ slept (world_after wait w) = slept w + 60 * 20.
Proof.
  intros enable at_attempt wait Hall.
  subst enable at_attempt wait.
  unfold wait_for_in_progress_operations, result_of, world_after.
  destruct (attempt_loop_retries client ou_id_ ou_arn_ baseline_identifier
              identity_center_arn 20 0 w Hall)
    as (Hloop & Hc & Hs & _).
  change attempt_budget with (20 + 0). rewrite Hloop.
  cbn [attempt_loop fst snd]. unfold raise. cbn [fst snd].
  repeat split; assumption.
Qed.

Section BackoffWorld.

Variable client : Client.
Variables ou_id_ ou_arn_ baseline_identifier identity_center_arn : string.

(** A round of the backoff loop never raises and never leaves the process,
    and makes no poll. *)
Lemma attempt_once_total (w : World) :
  exists s w',
    attempt_once client ou_id_ ou_arn_ baseline_identifier
      identity_center_arn w = (Returns s, w')
    /\ operation_calls w' = operation_calls w.
Proof.
  destruct (enable_baseline_world client ou_id_ ou_arn_ baseline_identifier
              identity_center_arn w) as [(_ & _ & Ho) Hexit].
  unfold world_after, result_of in *.
  rewrite attempt_once_unfold.
  destruct (enable_baseline _ _ _ _ _ w) as [[v | e | code] w1];
    cbn [fst snd] in *.
  - destruct (truthy v && negb (opt_eqb v IN_PROGRESS));
      [| destruct (is_None v)]; do 2 eexists; (split; [reflexivity |]);
      cbn; exact Ho.
  - do 2 eexists. split; [reflexivity |]. cbn. exact Ho.
  - now destruct (Hexit code).
Qed.

(** The only exception the backoff loop raises is its timeout; it never
    leaves the process and makes no poll. *)
Lemma attempt_loop_total (n : nat) :
  forall w : World,
    exists w',
      operation_calls w' = operation_calls w
      /\ ((exists v,
             attempt_loop client ou_id_ ou_arn_ baseline_identifier
               identity_center_arn n w = (Returns v, w'))
          \/ attempt_loop client ou_id_ ou_arn_ baseline_identifier
               identity_center_arn n w = (Raises (timed_out ou_id_), w')).
Proof.
  induction n as [| n IH]; intros w.
  - exists w. split; [reflexivity | right; reflexivity].
  - destruct (attempt_once_total w) as (s & w1 & Hstep & Ho).
    rewrite attempt_loop_S, Hstep. destruct s as [v |].
    + exists w1. split; [exact Ho | left; now exists v].
    + destruct (IH w1) as (w2 & Ho2 & Hres).
      exists w2. split; [congruence | exact Hres].
Qed.

End BackoffWorld.

(** ** OU registrar *)

Section Registrar.

Variable client : Client.
Variables ou_id_ ou_arn_ baseline_identifier identity_center_arn : string.

(** [register_ou], one equation per path through the source. *)
Lemma register_ou_unfold (w : World) :
  register_ou client ou_id_ ou_arn_ baseline_identifier identity_center_arn w
  = let failed e w' :=
      (Returns false, record (Printed (LogErrorRegistering ou_id_ e)) w') in
    let skipped w' :=
      (Returns true, record (Printed (LogSkipped ou_id_)) w') in
    match wait_for_in_progress_operations client ou_id_ ou_arn_
            baseline_identifier identity_center_arn
            (record (Printed (LogRegistering ou_id_)) w) with
    | (Returns (Some id), w1) =>
        if str_truthy id then
          match check_operation_status client id w1 with
          | (Returns true, w2) =>
              (Returns true,
               record (Printed (LogSuccessfullyRegistered ou_id_)) w2)
          | (Returns false, w2) =>
              (Returns false,
               record (Printed (LogFailedToRegister ou_id_)) w2)
          | (Raises e, w2) => failed e w2
          | (Exits code, w2) => (Exits code, w2)
          end
        else skipped w1
    | (Returns None, w1) => skipped w1
    | (Raises e, w1) => failed e w1
    | (Exits code, w1) => (Exits code, w1)
    end.
Proof.
  unfold register_ou, try_except, bind, print, ret. cbv beta iota zeta.
  destruct (wait_for_in_progress_operations _ _ _ _ _ _)
    as [[[id |] | e | code] w1]; cbv beta iota; try reflexivity.
  destruct (str_truthy id); [| reflexivity].
  destruct (check_operation_status client id w1)
    as [[[|] | e | code] w2]; reflexivity.
Qed.

End Registrar.

(** C8. Whenever the backoff loop gives [None] (already registered) for an
    OU, [register_ou] prints that the OU was skipped and returns [True]; it
    does nothing else after the loop, so no poll of an operation is made. *)
Theorem register_ou_skips_without_polling
    (client : Client)
    (ou_id_ ou_arn_ baseline_identifier identity_center_arn : string)
    (w : World) :
  let wait :=
    wait_for_in_progress_operations client ou_id_ ou_arn_ baseline_identifier
      identity_center_arn in
  let register :=
    register_ou client ou_id_ ou_arn_ baseline_identifier
      identity_center_arn in
  let w0 := record (Printed (LogRegistering ou_id_)) w in
  result_of wait w0 = Returns None ->
  register w
  = (Returns true, record (Printed (LogSkipped ou_id_)) (world_after wait w0))
  /\ operation_calls (world_after register w) = operation_calls w.
Proof.
  intros wait register w0 Hnone. subst wait register w0.
  destruct (attempt_loop_total client ou_id_ ou_arn_ baseline_identifier
              identity_center_arn attempt_budget
              (record (Printed (LogRegistering ou_id_)) w))
    as (w1 & Ho & Hres).
  unfold result_of, world_after in *.
  rewrite register_ou_unfold. cbv zeta.
  unfold wait_for_in_progress_operations in *.
  destruct (attempt_loop _ _ _ _ _ attempt_budget _) as [r w1'] eqn:Hw.
  cbn [fst snd] in *. subst r. split; [reflexivity |].
  cbn [fst snd record operation_calls].
  cbn [record operation_calls] in Ho.
  destruct Hres as [[v Hres] | Hres]; [| discriminate].
  injection Hres as _ ->. exact Ho.
Qed.

(** ** Errors of the enable attempt *)

(** C2 (as the code has it). An error of the enable call that is neither an
    already-governed conflict nor an operation-in-progress conflict leaves
    [enable_baseline] unmasked, but not the backoff loop: the loop catches
    it, prints it, sleeps 60 seconds and goes on with what is left of its
    budget.  The only exception that leaves the loop is its own timeout. *)
Theorem enable_error_is_retried_by_backoff
    (client : Client)
    (ou_id_ ou_arn_ baseline_identifier identity_center_arn : string)
    (w : World) (e : exn) :
  let args := enable_args ou_arn_ baseline_identifier identity_center_arn in
  let enable :=
    enable_baseline client ou_id_ ou_arn_ baseline_identifier
      identity_center_arn in
  let loop :=
    attempt_loop client ou_id_ ou_arn_ baseline_identifier
      identity_center_arn in
  let wait :=
    wait_for_in_progress_operations client ou_id_ ou_arn_ baseline_identifier
      identity_center_arn in
  enable_baseline_api client (enable_calls w) args = inr e ->
  unclassified e ->
  result_of enable w = Raises e
  /\ (forall n,
        loop (S n) w
        = loop n (asleep 60 (record (Printed (LogErrorWaiting e))
                               (world_after enable w))))
  /\ (forall e', result_of wait w = Raises e' -> e' = timed_out ou_id_).
Proof.
  intros args enable loop wait Hanswer Hun.
  subst args enable loop wait.
  assert (Henable :
    result_of (enable_baseline client ou_id_ ou_arn_ baseline_identifier
                 identity_center_arn) w = Raises e).
  { unfold result_of. rewrite enable_baseline_unfold. cbv zeta.
    rewrite Hanswer. destruct e as [code message | message];
      [| reflexivity].
    destruct Hun as [Hcode | [Hgov Hother]].
    - apply String.eqb_neq in Hcode. now rewrite Hcode.
    - rewrite Hgov, Hother. now destruct (code =? "ConflictException"). }
  split; [exact Henable | split].
  - intros n. rewrite attempt_loop_S, attempt_once_unfold.
    unfold result_of, world_after in *.
    destruct (enable_baseline _ _ _ _ _ w) as [r w1]. cbn [fst snd] in *.
    now subst r.
  - intros e' Hraise. unfold result_of, wait_for_in_progress_operations in *.
    destruct (attempt_loop_total client ou_id_ ou_arn_ baseline_identifier
                identity_center_arn attempt_budget w)
      as (w' & _ & [[v Hres] | Hres]);
      rewrite Hres in Hraise; cbn in Hraise; congruence.
Qed.

(** ** Batch driver *)

(** For every list of OUs and every registrar, the loop does what calling
    the registrar on the first [n] OUs of the list, in order, does, and
    nothing on the OUs after them: either [n] is the whole list, every
    result is [True] and the loop completes, or the [n]-th OU is the first
    whose result is not [True]; when that result is [False] the loop prints
    which OU failed and leaves the process with status 1. *)
Lemma register_each_halts_at_first_failure
    (registrar : OU -> M bool) (ous : list OU) (w : World) :
  exists n,
    n <= length ous
    /\ let invoked := invoke_all registrar (firstn n ous) w in
       (n = length ous
        /\ fst invoked = repeat (Returns true) n
        /\ register_each registrar ous w = (Returns tt, snd invoked))
       \/
       (exists m ou r,
           n = S m
           /\ nth_error ous m = Some ou
           /\ fst invoked = (repeat (Returns true) m ++ [r])%list
           /\ r <> Returns true
           /\ register_each registrar ous w
              = match r with
                | Returns _ =>
                    (Exits 1,
                     record (Printed (LogStopping (ou_id ou))) (snd invoked))
                | Raises e => (Raises e, snd invoked)
                | Exits code => (Exits code, snd invoked)
                end).
Proof.
  revert w. induction ous as [| ou rest IH]; intros w.
  - exists 0. split; [reflexivity |]. left. repeat split.
  - destruct (registrar ou w) as [r w1] eqn:Hcall.
    assert (Hstop :
      r <> Returns true ->
      register_each registrar (ou :: rest) w
      = match r with
        | Returns _ =>
            (Exits 1, record (Printed (LogStopping (ou_id ou))) w1)
        | Raises e => (Raises e, w1)
        | Exits code => (Exits code, w1)
        end).
    { intros Hr. cbn [register_each]. unfold bind. rewrite Hcall.
      destruct r as [[|] | e | code]; [contradiction | | |]; reflexivity. }
    destruct r as [[|] | e | code].
    2-4: exists 1; (split; [cbn; lia |]); right;
         eexists 0, ou, _; cbn [firstn invoke_all]; rewrite Hcall;
         cbn [fst snd repeat app nth_error];
         (repeat split; [discriminate | apply Hstop; discriminate]).
    destruct (IH w1) as (n & Hn & Hcases).
    exists (S n). split; [cbn; lia |].
    cbn [firstn invoke_all]. rewrite Hcall.
    cbv zeta in Hcases.
    destruct (invoke_all registrar (firstn n rest) w1) as [rs w2].
    cbn [fst snd] in *.
    assert (Hgo :
      register_each registrar (ou :: rest) w = register_each registrar rest w1).
    { cbn [register_each]. unfold bind. now rewrite Hcall. }
    destruct Hcases as [(Hlen & Hrs & Hrun) | (m & ou' & r & Hm & Hnth & Hrs & Hr & Hrun)].
    + left. repeat split; [cbn; lia | cbn; now rewrite Hrs | congruence].
    + right. exists (S m), ou', r.
      repeat split; [lia | exact Hnth | cbn; now rewrite Hrs | exact Hr |
                      congruence].
Qed.

(** The poller never leaves the process. *)
Lemma poll_loop_no_exit (client : Client) (operation_id : string) (n : nat) :
  forall (w : World) (code : nat),
    result_of (poll_loop client operation_id n) w <> Exits code.
Proof.
  unfold result_of.
  induction n as [| n IH]; intros w code; [discriminate |].
  destruct (poll_once_verdict client operation_id w) as (w1 & Hstep & _).
  cbn [poll_loop]. unfold bind. rewrite Hstep.
  destruct (verdict_of _); try discriminate. apply IH.
Qed.

(** [register_ou] turns every outcome into a boolean. *)
Lemma register_ou_total
    (client : Client)
    (ou_id_ ou_arn_ baseline_identifier identity_center_arn : string)
    (w : World) :
  exists b,
    result_of
      (register_ou client ou_id_ ou_arn_ baseline_identifier
         identity_center_arn) w = Returns b.
Proof.
  unfold result_of. rewrite register_ou_unfold. cbv zeta.
  destruct (attempt_loop_total client ou_id_ ou_arn_ baseline_identifier
              identity_center_arn attempt_budget
              (record (Printed (LogRegistering ou_id_)) w))
    as (w1 & _ & [[v Hres] | Hres]);
    unfold wait_for_in_progress_operations; rewrite Hres.
  - destruct v as [id |]; [| now exists true].
    destruct (str_truthy id); [| now exists true].
    pose proof (poll_loop_no_exit client id poll_budget w1) as Hexit.
    unfold result_of, check_operation_status in *.
    destruct (poll_loop client id poll_budget w1) as [[[|] | e | code] w2];
      cbn [fst] in *; eauto.
    now destruct (Hexit code).
  - now exists false.
Qed.

(** Once both identifiers are resolved, [register_ous] is its loop over the
    OUs with [register_ou] as the registrar. *)
Lemma register_ous_resolved
    (boto3_client : string -> Client) (region : string) (ous : list OU)
    (w : World) (baselines : list Baseline) (enabled : list EnabledBaseline)
    (baseline_identifier identity_center_arn : string) :
  let client := boto3_client region in
  list_baselines client = inl baselines ->
  first_control_tower_baseline baselines = Returns baseline_identifier ->
  list_enabled_baselines client = inl enabled ->
  first_identity_center_baseline enabled = Returns identity_center_arn ->
  register_ous boto3_client region ous w
  = register_each
      (fun ou =>
         register_ou client (ou_id ou) (ou_arn ou) baseline_identifier
           identity_center_arn)
      ous
      (record CallListEnabledBaselines (record CallListBaselines w)).
Proof.
  intros client Hb Hbid He Hica. subst client.
  unfold register_ous, try_except, bind at 1 2 3,
    get_baseline_identifier, get_identity_center_enabled_baseline_arn,
    bind, call_list_baselines, call_list_enabled_baselines, ret.
  rewrite Hb, He. cbn [of_outcome]. rewrite Hbid, Hica. reflexivity.
Qed.

Lemma get_baseline_identifier_first_match_witness :
  result_of (get_baseline_identifier busy_twice) initial_world
  = Returns (baseline_arn control_tower_baseline)
  /\ result_of (get_baseline_identifier unprepared) initial_world
     = Raises not_found_baseline.
Proof.
  split.
  - apply (proj2 (get_baseline_identifier_first_match busy_twice baselines
                    initial_world eq_refl)
             [audit_baseline] control_tower_baseline [control_tower_duplicate]);
      [reflexivity | | reflexivity].
    intros b' [<- | []]. cbn. discriminate.
  - apply (proj1 (get_baseline_identifier_first_match unprepared
                    [audit_baseline] initial_world eq_refl)).
    intros b [<- | []]. cbn. discriminate.
Defined.

Lemma enable_baseline_classifies_witness :
  result_of (enable_for governed) initial_world = Returns None
  /\ result_of (enable_for always_busy) initial_world
     = Returns (Some "IN_PROGRESS")
  /\ result_of (enable_for throttled_after_first) initial_world
     = Returns (Some "op-1")
  /\ result_of (enable_for throttled_once) initial_world = Raises throttling.
Proof.
  pose proof (fun client =>
                enable_baseline_classifies client (ou_id ou1) (ou_arn ou1)
                  baseline_id identity_arn initial_world) as Hclass.
  cbv zeta in Hclass.
  split; [| split; [| split]].
  - apply (proj1 (Hclass governed) _ eq_refl). reflexivity.
  - apply (proj1 (proj2 (Hclass always_busy)) _ eq_refl); reflexivity.
  - apply (proj1 (proj2 (proj2 (Hclass throttled_after_first))) _ "op-1"
             eq_refl).
    reflexivity.
  - apply (proj2 (proj2 (proj2 (Hclass throttled_once))) _ _ eq_refl).
    left. discriminate.
Defined.

Lemma check_operation_status_verdict_witness :
  result_of (check_operation_status busy_twice "op-1") initial_world
  = Returns true
  /\ operation_calls
       (world_after (check_operation_status busy_twice "op-1") initial_world)
     = 3.
Proof.
  apply (proj1 (proj2 (proj2 (check_operation_status_verdict busy_twice "op-1"
                                initial_world))));
    reflexivity.
Defined.

Lemma wait_for_in_progress_operations_returns_operation_witness :
  result_of (wait_for busy_twice) initial_world = Returns (Some "op-1")
  /\ enable_calls (world_after (wait_for busy_twice) initial_world) = 3
  /\ slept (world_after (wait_for busy_twice) initial_world) = 120.
Proof.
  apply (wait_for_in_progress_operations_returns_operation busy_twice
           (ou_id ou1) (ou_arn ou1) baseline_id identity_arn initial_world
           2 "op-1").
  - lia.
  - intros i Hi. destruct i as [| [| i]]; [reflexivity | reflexivity | lia].
  - reflexivity.
  - split; discriminate.
Defined.

Lemma wait_for_in_progress_operations_times_out_witness :
  result_of (wait_for always_busy) initial_world = Raises (timed_out "ou-1")
  /\ enable_calls (world_after (wait_for always_busy) initial_world) = 20
  /\ slept (world_after (wait_for always_busy) initial_world) = 1200.
Proof.
  apply (wait_for_in_progress_operations_times_out always_busy
           (ou_id ou1) (ou_arn ou1) baseline_id identity_arn initial_world).
  intros i Hi. left.
  do 20 (destruct i as [| i]; [vm_compute; reflexivity |]).
  lia.
Defined.

Lemma register_ou_skips_without_polling_witness :
  result_of (register_for governed) initial_world = Returns true
  /\ operation_calls (world_after (register_for governed) initial_world) = 0.
Proof.
  destruct (register_ou_skips_without_polling governed (ou_id ou1) (ou_arn ou1)
              baseline_id identity_arn initial_world) as [Hrun Hpolls].
  - vm_compute. reflexivity.
  - split; [| exact Hpolls].
    unfold result_of, register_for. now rewrite Hrun.
Defined.

Lemma enable_error_is_retried_by_backoff_witness :
  result_of (enable_for throttled_once) initial_world = Raises throttling
  /\ attempt_loop throttled_once (ou_id ou1) (ou_arn ou1) baseline_id
       identity_arn 20 initial_world
     = attempt_loop throttled_once (ou_id ou1) (ou_arn ou1) baseline_id
         identity_arn 19
         (asleep 60 (record (Printed (LogErrorWaiting throttling))
                       (world_after (enable_for throttled_once)
                          initial_world))).
Proof.
  destruct (enable_error_is_retried_by_backoff throttled_once
              (ou_id ou1) (ou_arn ou1) baseline_id identity_arn initial_world
              throttling eq_refl) as (Henable & Hloop & _).
  - left. discriminate.
  - split; [exact Henable | exact (Hloop 19)].
Defined.

(** C2, as the claim has it, fails: the first enable call is throttled, an
    error that is neither of the two conflicts; it leaves [enable_baseline],
    but the backoff loop retries, returns the operation of the second call,
    and the run completes. *)
Lemma throttled_enable_is_not_propagated :
  unclassified throttling
  /\ result_of (enable_for throttled_once) initial_world = Raises throttling
  /\ result_of (wait_for throttled_once) initial_world = Returns (Some "op-1")
  /\ result_of (wait_for throttled_once) initial_world <> Raises throttling
  /\ enable_calls (world_after (wait_for throttled_once) initial_world) = 2
  /\ result_of (register_ous (fun _ => throttled_once) "us-east-1" [ou1])
       initial_world
     = Returns tt.
Proof.
  split; [left; discriminate |].
  repeat split; try (vm_compute; reflexivity).
  vm_compute. discriminate.
Qed.

(** The end-to-end run of the specification: the first OU is registered, the
    enable calls of the second keep failing with an error that is not a
    conflict, and the third OU is never entered.  The run stops with status
    1 after the 20 attempts made for the second OU. *)
Example register_ous_stops_at_second_ou :
  let run :=
    register_ous (fun _ => throttled_after_first) "us-east-1" [ou1; ou2; ou3]
      initial_world in
  fst run = Exits 1
  /\ registering (trace (snd run)) = ["ou-1"; "ou-2"]
  /\ enable_calls (snd run) = 21
  /\ slept (snd run) = 1200.
Proof.
  vm_compute. repeat split.
Qed.

(** * Further properties of the loops *)

(** ** Budgets *)

Section BackoffBudget.

Variable client : Client.
Variables ou_id_ ou_arn_ baseline_identifier identity_center_arn : string.

Local Abbreviation attempt :=
  (attempt_once client ou_id_ ou_arn_ baseline_identifier
     identity_center_arn).

Local Abbreviation loop :=
  (attempt_loop client ou_id_ ou_arn_ baseline_identifier
     identity_center_arn).

(** A round either ends the loop, without sleeping, or sleeps 60 seconds
    and leaves the loop going; it makes one enable call either way. *)
Lemma attempt_once_step (w : World) :
  exists w',
    (exists v,
        attempt w = (Returns (Return_ v), w')
        /\ handed_back v /\ attempted 1 0 w w')
    \/ (attempt w = (Returns Next, w') /\ attempted 1 60 w w').
Proof.
  destruct (enable_baseline_world client ou_id_ ou_arn_ baseline_identifier
              identity_center_arn w) as [(Hc & Hs & Ho) Hexit].
  unfold world_after, result_of in *. rewrite attempt_once_unfold.
  destruct (enable_baseline _ _ _ _ _ w) as [[v | e | code] w1];
    cbn [fst snd] in *.
  - destruct v as [id |]; cbn.
    + unfold str_truthy.
      destruct (id =? "") eqn:Hempty; destruct (id =? IN_PROGRESS) eqn:Hbusy;
        cbn.
      1-3: eexists; right; (split; [reflexivity |]);
           unfold attempted; cbn; lia.
      eexists. left. exists (Some id). split; [reflexivity |].
      split; [| unfold attempted; lia].
      right. exists id. split; [reflexivity |].
      apply String.eqb_neq in Hempty, Hbusy. now split.
    + eexists. left. exists None. split; [reflexivity |].
      split; [now left | unfold attempted; lia].
  - eexists. right. split; [reflexivity |]. unfold attempted. cbn. lia.
  - now destruct (Hexit code).
Qed.

(** The loop returns after [c] enable calls, 60 seconds of sleep after
    each but the last, or raises its timeout with the whole budget used. *)
Lemma attempt_loop_budget (n : nat) :
  forall w : World,
    exists w',
      (exists v c,
          loop n w = (Returns v, w')
          /\ handed_back v
          /\ 1 <= c <= n
          /\ attempted c (60 * (c - 1)) w w')
      \/ (loop n w = (Raises (timed_out ou_id_), w')
          /\ attempted n (60 * n) w w').
Proof.
  induction n as [| n IH]; intros w.
  - exists w. right. split; [reflexivity | unfold attempted; lia].
  - rewrite attempt_loop_S.
    destruct (attempt_once_step w)
      as (w1 & [(v & Hstep & Hv & Hc & Hs & Ho) | (Hstep & Hc & Hs & Ho)]);
      rewrite Hstep.
    + exists w1. left. exists v, 1. repeat split; try assumption; lia.
    + destruct (IH w1)
        as (w2 & [(v & c & Hloop & Hv & Hrange & Hc' & Hs' & Ho')
                 | (Hloop & Hc' & Hs' & Ho')]).
      * exists w2. left. exists v, (S c).
        repeat split; try assumption; lia.
      * exists w2. right. split; [exact Hloop | unfold attempted; lia].
Qed.

End BackoffBudget.

(** X1. Whatever the client answers, [wait_for_in_progress_operations]
    either returns after [c] enable calls, with [c] between 1 and 20 and a
    sleep of 60 seconds after each call but the last, or raises its timeout
    after exactly 20 enable calls and 20 sleeps of 60 seconds.  It never
    polls an operation and never leaves the process. *)
Theorem wait_for_in_progress_operations_budget
    (client : Client)
    (ou_id_ ou_arn_ baseline_identifier identity_center_arn : string)
    (w : World) :
  let wait :=
    wait_for_in_progress_operations client ou_id_ ou_arn_ baseline_identifier
      identity_center_arn in
  let w' := world_after wait w in
  operation_calls w' = operation_calls w
  /\ ((exists v c,
          result_of wait w = Returns v
          /\ 1 <= c <= 20
          /\ enable_calls w' = enable_calls w + c
          /\ slept w' = slept w + 60 * (c - 1))
      \/ (result_of wait w = Raises (timed_out ou_id_)
          /\ enable_calls w' = enable_calls w + 20
          /\ slept w' = slept w + 60 * 20)).
Proof.
  intros wait w'. subst wait w'.
  unfold result_of, world_after, wait_for_in_progress_operations,
    attempt_budget.
  destruct (attempt_loop_budget client ou_id_ ou_arn_ baseline_identifier
              identity_center_arn 20 w)
    as (w1 & [(v & c & Hloop & _ & Hrange & Hc & Hs & Ho)
             | (Hloop & Hc & Hs & Ho)]);
    rewrite Hloop; cbn [fst snd]; (split; [exact Ho |]).
  - left. exists v, c. repeat split; try assumption; lia.
  - right. repeat split; assumption.
Qed.

(** X2. An operation identifier that [wait_for_in_progress_operations]
    returns is never the empty string and never the ['IN_PROGRESS'] marker:
    those two values of [enable_baseline] are retried, not handed back. *)
Theorem wait_for_in_progress_operations_returns_normal_id
    (client : Client)
    (ou_id_ ou_arn_ baseline_identifier identity_center_arn : string)
    (w : World) (id : string) :
  result_of
    (wait_for_in_progress_operations client ou_id_ ou_arn_
       baseline_identifier identity_center_arn) w
  = Returns (Some id) ->
  id <> "" /\ id <> "IN_PROGRESS".
Proof.
  unfold result_of, wait_for_in_progress_operations. intros Hres.
  destruct (attempt_loop_budget client ou_id_ ou_arn_ baseline_identifier
              identity_center_arn attempt_budget w)
    as (w1 & [(v & c & Hloop & Hv & _) | (Hloop & _)]);
    rewrite Hloop in Hres; cbn in Hres; [| discriminate].
  injection Hres as ->.
  destruct Hv as [Hnone | (id' & Hsome & Hnormal)]; [discriminate |].
  injection Hsome as <-. exact Hnormal.
Qed.

(** ** The poller's budget and exceptions *)

Lemma verdict_of_aborts (answer : outcome OperationResponse) (e : exn) :
  verdict_of answer = Aborts e ->
  answer = inr e /\ is_ClientError e = false.
Proof.
  unfold verdict_of.
  destruct answer as [response | [code message | message]];
    [| discriminate |].
  - destruct (get_status response) as [st |]; [| discriminate].
    destruct (st =? "SUCCEEDED"); [discriminate |].
    destruct (st =? "FAILED"); discriminate.
  - intros H. injection H as <-. now split.
Qed.

(** X4. The only exception [check_operation_status] raises is one the
    client raised at a poll, unchanged, and it is never a [ClientError]:
    every earlier poll was not terminal, and error responses of the service
    are swallowed and polled again. *)
Theorem check_operation_status_raises_client_side_only
    (client : Client) (operation_id : string) (w : World) (e : exn) :
  result_of (check_operation_status client operation_id) w = Raises e ->
  is_ClientError e = false
  /\ exists k,
       k < 40
       /\ poll_at client operation_id w k = inr e
       /\ forall j, j < k ->
            verdict_of (poll_at client operation_id w j) = Pending.
Proof.
  unfold result_of, check_operation_status, poll_budget. intros Hraise.
  destruct (first_stop (fun k => verdict_of (poll_at client operation_id w k))
              40) as [Hall | (k & Hk & Hbefore & Hstop)].
  - destruct (poll_loop_exhausts client operation_id 40 w Hall)
      as (w1 & Hrun & _).
    rewrite Hrun in Hraise. discriminate.
  - destruct (poll_loop_stops client operation_id 40 k w Hk Hbefore Hstop)
      as (w1 & Hrun & _).
    rewrite Hrun in Hraise. cbn [fst] in Hraise.
    destruct (verdict_of (poll_at client operation_id w k)) eqn:Hv;
      cbn in Hraise; try discriminate.
    injection Hraise as ->.
    destruct (verdict_of_aborts _ _ Hv) as [Hanswer Hclass].
    split; [exact Hclass |]. exists k. repeat split; assumption.
Qed.

Lemma wait_for_in_progress_operations_returns_normal_id_witness :
  "op-1" <> "" /\ "op-1" <> "IN_PROGRESS".
Proof.
  apply (wait_for_in_progress_operations_returns_normal_id busy_twice
           (ou_id ou1) (ou_arn ou1) baseline_id identity_arn initial_world
           "op-1").
  vm_compute. reflexivity.
Defined.

Lemma check_operation_status_raises_client_side_only_witness :
  is_ClientError connection_lost = false
  /\ exists k,
       k < 40
       /\ poll_at poll_breaks "op-1" initial_world k = inr connection_lost
       /\ forall j, j < k ->
            verdict_of (poll_at poll_breaks "op-1" initial_world j) = Pending.
Proof.
  apply (check_operation_status_raises_client_side_only poll_breaks "op-1"
           initial_world connection_lost).
  vm_compute. reflexivity.
Defined.

(** ** The registrar *)

Section RegistrarPaths.

Variable client : Client.
Variables ou_id_ ou_arn_ baseline_identifier identity_center_arn : string.

Local Abbreviation wait :=
  (wait_for_in_progress_operations client ou_id_ ou_arn_ baseline_identifier
     identity_center_arn).

Local Abbreviation register :=
  (register_ou client ou_id_ ou_arn_ baseline_identifier
     identity_center_arn).

Local Abbreviation entered w := (record (Printed (LogRegistering ou_id_)) w).

(** With the polls all pending or with a first poll that stops it, the
    poller has a budget of 40 polls and 30 seconds of sleep per poll. *)
Lemma poll_loop_budget (operation_id : string) (w : World) :
  exists p s,
    1 <= p <= 40
    /\ polled p s w (world_after (poll_loop client operation_id 40) w)
    /\ (s = 30 * (p - 1)
        \/ (p = 40
            /\ result_of (poll_loop client operation_id 40) w = Returns false
            /\ s = 30 * 40)).
Proof.
  unfold result_of, world_after.
  destruct (first_stop (fun k => verdict_of (poll_at client operation_id w k))
              40) as [Hall | (k & Hk & Hbefore & Hstop)].
  - destruct (poll_loop_exhausts client operation_id 40 w Hall)
      as (w1 & Hrun & Hpolled).
    rewrite Hrun. cbn [fst snd]. exists 40, (30 * 40).
    split; [lia | split; [exact Hpolled |]]. right. now repeat split.
  - destruct (poll_loop_stops client operation_id 40 k w Hk Hbefore Hstop)
      as (w1 & Hrun & Hpolled).
    rewrite Hrun. cbn [fst snd]. exists (S k), (30 * k).
    split; [lia | split; [exact Hpolled |]]. left. lia.
Qed.

(** [register_ou] once the backoff loop has handed back an operation. *)
Lemma register_ou_polls (w w1 : World) (id : string) :
  wait (entered w) = (Returns (Some id), w1) ->
  register w
  = match check_operation_status client id w1 with
    | (Returns true, w2) =>
        (Returns true,
         record (Printed (LogSuccessfullyRegistered ou_id_)) w2)
    | (Returns false, w2) =>
        (Returns false, record (Printed (LogFailedToRegister ou_id_)) w2)
    | (Raises e, w2) =>
        (Returns false, record (Printed (LogErrorRegistering ou_id_ e)) w2)
    | (Exits code, w2) => (Exits code, w2)
    end.
Proof.
  intros Hwait. rewrite register_ou_unfold. cbv zeta. rewrite Hwait.
  assert (Htruthy : str_truthy id = true).
  { unfold wait_for_in_progress_operations in Hwait.
    destruct (attempt_loop_budget client ou_id_ ou_arn_ baseline_identifier
                identity_center_arn attempt_budget (entered w))
      as (w' & [(v & c & Hloop & Hv & _) | (Hloop & _)]);
      rewrite Hloop in Hwait; [| discriminate].
    injection Hwait as -> _.
    destruct Hv as [Hnone | (id' & Hsome & Hne & _)]; [discriminate |].
    injection Hsome as <-. unfold str_truthy.
    apply String.eqb_neq in Hne. now rewrite Hne. }
  now rewrite Htruthy.
Qed.

(** The polls are numbered from the calls made so far, which the backoff
    loop leaves as they were. *)
Lemma poll_at_after_wait (w w1 : World) (v : option string)
    (operation_id : string) (k : nat) :
  wait (entered w) = (Returns v, w1) ->
  poll_at client operation_id w1 k = poll_at client operation_id w k.
Proof.
  intros Hwait. unfold wait_for_in_progress_operations in Hwait.
  destruct (attempt_loop_total client ou_id_ ou_arn_ baseline_identifier
              identity_center_arn attempt_budget (entered w))
    as (w' & Ho & [[v' Hres] | Hres]); rewrite Hres in Hwait;
    [| discriminate].
  injection Hwait as _ <-. unfold poll_at. now rewrite Ho.
Qed.

End RegistrarPaths.

(** X5. [register_ou] never raises and never leaves the process: it
    returns a boolean, and the last line it prints tells which one.
    "Successfully registered" and "Skipped" go with [True], "Failed to
    register" and "Error registering" with [False], each for the OU it was
    called on. *)
Theorem register_ou_reports_verdict
    (client : Client)
    (ou_id_ ou_arn_ baseline_identifier identity_center_arn : string)
    (w : World) :
  exists b line w1,
    register_ou client ou_id_ ou_arn_ baseline_identifier identity_center_arn w
    = (Returns b, record (Printed line) w1)
    /\ verdict_line ou_id_ line b.
Proof.
  rewrite register_ou_unfold. cbv zeta.
  destruct (attempt_loop_total client ou_id_ ou_arn_ baseline_identifier
              identity_center_arn attempt_budget
              (record (Printed (LogRegistering ou_id_)) w))
    as (w1 & _ & [[v Hres] | Hres]);
    unfold wait_for_in_progress_operations; rewrite Hres.
  - destruct v as [id |].
    + destruct (str_truthy id).
      * pose proof (poll_loop_no_exit client id poll_budget w1) as Hexit.
        unfold result_of, check_operation_status in *.
        destruct (poll_loop client id poll_budget w1)
          as [[[|] | e | code] w2]; cbn [fst] in *.
        -- exists true, (LogSuccessfullyRegistered ou_id_), w2. now split.
        -- exists false, (LogFailedToRegister ou_id_), w2. now split.
        -- exists false, (LogErrorRegistering ou_id_ e), w2. now split.
        -- now destruct (Hexit code).
      * exists true, (LogSkipped ou_id_), w1. now split.
    + exists true, (LogSkipped ou_id_), w1. now split.
  - exists false, (LogErrorRegistering ou_id_ (timed_out ou_id_)), w1.
    now split.
Qed.

(** X6. Whatever the client answers, one call of [register_ou] makes
    between 1 and 20 enable calls and at most 40 polls, and sleeps at most
    2400 seconds: 20 times 60 in the backoff loop and 40 times 30 in the
    poller. *)
Theorem register_ou_budget
    (client : Client)
    (ou_id_ ou_arn_ baseline_identifier identity_center_arn : string)
    (w : World) :
  let w' :=
    world_after
      (register_ou client ou_id_ ou_arn_ baseline_identifier
         identity_center_arn) w in
  enable_calls w + 1 <= enable_calls w' <= enable_calls w + 20
  /\ operation_calls w <= operation_calls w' <= operation_calls w + 40
  /\ slept w <= slept w' <= slept w + 2400.
Proof.
  intros w'. subst w'. unfold world_after.
  rewrite register_ou_unfold. cbv zeta.
  unfold wait_for_in_progress_operations, attempt_budget.
  destruct (attempt_loop_budget client ou_id_ ou_arn_ baseline_identifier
              identity_center_arn 20
              (record (Printed (LogRegistering ou_id_)) w))
    as (w1 & [(v & c & Hloop & _ & Hrange & Hc & Hs & Ho)
             | (Hloop & Hc & Hs & Ho)]);
    rewrite Hloop; cbn [record enable_calls operation_calls slept] in *.
  - destruct v as [id |]; [| cbn; lia].
    destruct (str_truthy id); [| cbn; lia].
    destruct (poll_loop_budget client id w1)
      as (p & s & Hp & (Hc' & Hs' & He') & Hslept).
    unfold check_operation_status, poll_budget, world_after, result_of in *.
    assert (Hs_le : s <= 30 * 40) by (destruct Hslept as [-> | (_ & _ & ->)]; lia).
    destruct (poll_loop client id 40 w1) as [[[|] | e | code] w2];
      cbn [fst snd record enable_calls operation_calls slept] in *; lia.
  - cbn. lia.
Qed.

(** X7. The path of a registration that goes through: if the first [N]
    enable attempts for an OU each answer ['IN_PROGRESS'] or raise, with
    [N] below 20, the next one is accepted with a normal operation
    identifier, the first [k] polls of that operation are not terminal, with
    [k] below 40, and the next poll answers ['SUCCEEDED'] or ['FAILED'],
    then [register_ou] returns [True] on ['SUCCEEDED'] and [False] on
    ['FAILED'], after [N + 1] enable calls, [k + 1] polls and
    [60 * N + 30 * k] seconds of sleep. *)
Theorem register_ou_follows_operation
    (client : Client)
    (ou_id_ ou_arn_ baseline_identifier identity_center_arn : string)
    (w : World) (N k : nat) (id : string) :
  let enable :=
    enable_baseline client ou_id_ ou_arn_ baseline_identifier
      identity_center_arn in
  let at_attempt i :=
    after_attempts client ou_id_ ou_arn_ baseline_identifier
      identity_center_arn i (record (Printed (LogRegistering ou_id_)) w) in
  let poll j := verdict_of (poll_at client id w j) in
  let register :=
    register_ou client ou_id_ ou_arn_ baseline_identifier
      identity_center_arn in
  N < 20 ->
  (forall i, i < N ->
     result_of enable (at_attempt i) = Returns (Some "IN_PROGRESS")
     \/ exists e, result_of enable (at_attempt i) = Raises e) ->
  result_of enable (at_attempt N) = Returns (Some id) ->
  normal_operation_id id ->
  k < 40 ->
  (forall j, j < k -> poll j = Pending) ->
  poll k = Succeeded \/ poll k = Failed ->
  result_of register w
  = Returns (match poll k with Succeeded => true | _ => false end)
  /\ enable_calls (world_after register w) = enable_calls w + (N + 1)
  /\ operation_calls (world_after register w) = operation_calls w + (k + 1)
  /\ slept (world_after register w) = slept w + 60 * N + 30 * k.
Proof.
  intros enable at_attempt poll register HN Hbusy Hstart Hid Hk Hpending
    Hterm.
  subst enable at_attempt poll register. cbv beta in *.
  set (w0 := record (Printed (LogRegistering ou_id_)) w) in *.
  destruct (attempt_loop_retries client ou_id_ ou_arn_ baseline_identifier
              identity_center_arn N (S (19 - N)) w0 Hbusy)
    as (Hloop & Hc & Hs & Ho).
  set (wN := after_attempts client ou_id_ ou_arn_ baseline_identifier
               identity_center_arn N w0) in *.
  destruct (enable_baseline_world client ou_id_ ou_arn_ baseline_identifier
              identity_center_arn wN) as [(Hc1 & Hs1 & Ho1) _].
  set (w1 := world_after
               (enable_baseline client ou_id_ ou_arn_ baseline_identifier
                  identity_center_arn) wN) in *.
  assert (Hwait :
    wait_for_in_progress_operations client ou_id_ ou_arn_
      baseline_identifier identity_center_arn w0
    = (Returns (Some id), w1)).
  { unfold wait_for_in_progress_operations.
    replace attempt_budget with (N + S (19 - N))
      by (unfold attempt_budget; lia).
    rewrite Hloop, attempt_loop_S.
    now rewrite (attempt_once_started client ou_id_ ou_arn_
                   baseline_identifier identity_center_arn wN id Hstart Hid). }
  assert (Hshift : forall j, poll_at client id w1 j = poll_at client id w j)
    by (intros j; exact (poll_at_after_wait client ou_id_ ou_arn_
                           baseline_identifier identity_center_arn w w1
                           (Some id) id j Hwait)).
  destruct (poll_loop_stops client id 40 k w1 Hk)
    as (w2 & Hrun & Hc2 & Hs2 & He2).
  { intros j Hj. rewrite Hshift. now apply Hpending. }
  { rewrite Hshift. destruct Hterm as [-> | ->]; discriminate. }
  unfold result_of, world_after.
  rewrite (register_ou_polls client ou_id_ ou_arn_ baseline_identifier
             identity_center_arn w _ id Hwait).
  unfold check_operation_status, poll_budget. rewrite Hrun, Hshift.
  subst w0. cbn [record enable_calls operation_calls slept] in *.
  destruct Hterm as [-> | ->]; cbn; repeat split; lia.
Qed.

(** X8. When each of the 20 enable attempts for an OU answers
    ['IN_PROGRESS'] or raises, [register_ou] returns [False]: the timeout of
    the backoff loop is caught and printed as the error of this OU, after 20
    enable calls and 1200 seconds of sleep, and no poll is made. *)
Theorem register_ou_gives_up_after_budget
    (client : Client)
    (ou_id_ ou_arn_ baseline_identifier identity_center_arn : string)
    (w : World) :
  let enable :=
    enable_baseline client ou_id_ ou_arn_ baseline_identifier
      identity_center_arn in
  let at_attempt i :=
    after_attempts client ou_id_ ou_arn_ baseline_identifier
      identity_center_arn i (record (Printed (LogRegistering ou_id_)) w) in
  let register :=
    register_ou client ou_id_ ou_arn_ baseline_identifier
      identity_center_arn in
  (forall i, i < 20 ->
     result_of enable (at_attempt i) = Returns (Some "IN_PROGRESS")
     \/ exists e, result_of enable (at_attempt i) = Raises e) ->
  exists w1,
    register w
    = (Returns false,
       record (Printed (LogErrorRegistering ou_id_ (timed_out ou_id_))) w1)
    /\ enable_calls w1 = enable_calls w + 20
    /\ operation_calls w1 = operation_calls w
    /\ slept w1 = slept w + 1200.
Proof.
  intros enable at_attempt register Hall.
  subst enable at_attempt register. cbv beta in *.
  destruct (attempt_loop_retries client ou_id_ ou_arn_ baseline_identifier
              identity_center_arn 20 0
              (record (Printed (LogRegistering ou_id_)) w) Hall)
    as (Hloop & Hc & Hs & Ho).
  eexists. rewrite register_ou_unfold. cbv zeta.
  unfold wait_for_in_progress_operations.
  change attempt_budget with (20 + 0). rewrite Hloop.
  cbn [attempt_loop]. unfold raise.
  split; [reflexivity |].
  cbn [record enable_calls operation_calls slept] in *. lia.
Qed.

(** X9. An exception of a poll that is not a [ClientError] ends the
    registration of the OU at once: if the backoff loop hands back an
    operation, its first [k] polls are not terminal and the next poll raises
    such an exception, [register_ou] prints it as the error of this OU and
    returns [False] after [k + 1] polls, however much of the poll budget is
    left. *)
Theorem register_ou_fails_on_poll_exception
    (client : Client)
    (ou_id_ ou_arn_ baseline_identifier identity_center_arn : string)
    (w : World) (k : nat) (id : string) (e : exn) :
  let wait :=
    wait_for_in_progress_operations client ou_id_ ou_arn_ baseline_identifier
      identity_center_arn in
  let register :=
    register_ou client ou_id_ ou_arn_ baseline_identifier
      identity_center_arn in
  result_of wait (record (Printed (LogRegistering ou_id_)) w)
  = Returns (Some id) ->
  k < 40 ->
  (forall j, j < k -> verdict_of (poll_at client id w j) = Pending) ->
  poll_at client id w k = inr e ->
  is_ClientError e = false ->
  exists w1,
    register w
    = (Returns false, record (Printed (LogErrorRegistering ou_id_ e)) w1)
    /\ operation_calls w1 = operation_calls w + (k + 1).
Proof.
  intros wait register Hres Hk Hpending Hanswer Hclass.
  subst wait register. unfold result_of in Hres.
  destruct (wait_for_in_progress_operations client ou_id_ ou_arn_
              baseline_identifier identity_center_arn
              (record (Printed (LogRegistering ou_id_)) w))
    as [r w1] eqn:Hwait.
  cbn [fst] in Hres. subst r.
  assert (Hshift : forall j, poll_at client id w1 j = poll_at client id w j)
    by (intros j; exact (poll_at_after_wait client ou_id_ ou_arn_
                           baseline_identifier identity_center_arn w w1
                           (Some id) id j Hwait)).
  assert (Hv : verdict_of (poll_at client id w k) = Aborts e).
  { rewrite Hanswer. destruct e as [code message | message];
      [discriminate | reflexivity]. }
  destruct (poll_loop_stops client id 40 k w1 Hk)
    as (w2 & Hrun & Hc2 & Hs2 & He2).
  { intros j Hj. rewrite Hshift. now apply Hpending. }
  { rewrite Hshift, Hv. discriminate. }
  exists w2.
  rewrite (register_ou_polls client ou_id_ ou_arn_ baseline_identifier
             identity_center_arn w _ id Hwait).
  unfold check_operation_status, poll_budget. rewrite Hrun, Hshift, Hv.
  cbn [ends_with]. split; [reflexivity |].
  destruct (attempt_loop_total client ou_id_ ou_arn_ baseline_identifier
              identity_center_arn attempt_budget
              (record (Printed (LogRegistering ou_id_)) w))
    as (w' & Ho & Hcases).
  unfold wait_for_in_progress_operations in Hwait.
  rewrite Hwait in Hcases.
  destruct Hcases as [[v Heq] | Heq]; [| discriminate].
  injection Heq as _ <-.
  cbn [record operation_calls] in Ho. lia.
Qed.

Lemma register_ou_follows_operation_witness :
  result_of (register_for busy_twice) initial_world = Returns true
  /\ enable_calls (world_after (register_for busy_twice) initial_world) = 3
  /\ operation_calls (world_after (register_for busy_twice) initial_world) = 3
  /\ slept (world_after (register_for busy_twice) initial_world) = 180.
Proof.
  apply (register_ou_follows_operation busy_twice (ou_id ou1) (ou_arn ou1)
           baseline_id identity_arn initial_world 2 2 "op-1").
  - lia.
  - intros i Hi. left.
    destruct i as [| [| i]]; [reflexivity | reflexivity | lia].
  - reflexivity.
  - split; discriminate.
  - lia.
  - intros j Hj. destruct j as [| [| j]]; [reflexivity | reflexivity | lia].
  - left. reflexivity.
Defined.

Lemma register_ou_gives_up_after_budget_witness :
  exists w1,
    register_for always_busy initial_world
    = (Returns false,
       record (Printed (LogErrorRegistering "ou-1" (timed_out "ou-1"))) w1)
    /\ enable_calls w1 = 20
    /\ operation_calls w1 = 0
    /\ slept w1 = 1200.
Proof.
  apply (register_ou_gives_up_after_budget always_busy (ou_id ou1)
           (ou_arn ou1) baseline_id identity_arn initial_world).
  intros i Hi. left.
  do 20 (destruct i as [| i]; [vm_compute; reflexivity |]).
  lia.
Defined.

Lemma register_ou_fails_on_poll_exception_witness :
  exists w1,
    register_for poll_breaks initial_world
    = (Returns false,
       record (Printed (LogErrorRegistering "ou-1" connection_lost)) w1)
    /\ operation_calls w1 = 2.
Proof.
  apply (register_ou_fails_on_poll_exception poll_breaks (ou_id ou1)
           (ou_arn ou1) baseline_id identity_arn initial_world 1 "op-1"
           connection_lost).
  - vm_compute. reflexivity.
  - lia.
  - intros j Hj. destruct j as [| j]; [reflexivity | lia].
  - reflexivity.
  - reflexivity.
Defined.

(** ** The batch driver *)

Section Driver.

Variable client : Client.
Variables baseline_identifier identity_center_arn : string.

Local Abbreviation registrar :=
  (fun ou : OU =>
     register_ou client (ou_id ou) (ou_arn ou) baseline_identifier
       identity_center_arn).


(** [register_ou] on an OU the control plane reports as already governed:
    one enable call, nothing else. *)
Lemma register_ou_governed (ou : OU) (w : World) (message : string) :
  enable_baseline_api client (enable_calls w)
    (enable_args (ou_arn ou) baseline_identifier identity_center_arn)
  = inr (ClientError "ConflictException" message) ->
  contains "already governed" message = true ->
  exists w',
    registrar ou w = (Returns true, w') /\ attempted 1 0 w w'.
Proof.
  intros Hanswer Hgov.
  set (w0 := record (Printed (LogRegistering (ou_id ou))) w).
  assert (Henable :
    exists w1,
      enable_baseline client (ou_id ou) (ou_arn ou) baseline_identifier
        identity_center_arn w0 = (Returns None, w1)
      /\ attempted 1 0 w w1).
  { rewrite enable_baseline_unfold. cbv zeta.
    change (enable_calls w0) with (enable_calls w).
    rewrite Hanswer, String.eqb_refl, Hgov.
    eexists. split; [reflexivity | unfold attempted; cbn; lia]. }
  destruct Henable as (w1 & Henable & Hc & Hs & Ho).
  rewrite register_ou_unfold. cbv zeta. fold w0.
  unfold wait_for_in_progress_operations, attempt_budget.
  rewrite attempt_loop_S, attempt_once_governed
    by (unfold result_of; now rewrite Henable).
  unfold world_after. rewrite Henable. cbn [snd].
  eexists. split; [reflexivity | unfold attempted; cbn; lia].
Qed.

End Driver.

(** The resolvers make their one list call and never leave the process. *)
Lemma get_baseline_identifier_run (client : Client) (w : World) :
  exists r,
    get_baseline_identifier client w = (r, record CallListBaselines w)
    /\ forall code, r <> Exits code.
Proof.
  unfold get_baseline_identifier, bind, call_list_baselines.
  destruct (list_baselines client) as [baselines | e]; cbn [of_outcome].
  - eexists. split; [reflexivity |].
    induction baselines as [| b rest IH]; [discriminate |].
    cbn. now destruct (baseline_name b =? "AWSControlTowerBaseline").
  - eexists. split; [reflexivity | discriminate].
Qed.

Lemma get_identity_center_enabled_baseline_arn_run
    (client : Client) (w : World) :
  exists r,
    get_identity_center_enabled_baseline_arn client w
    = (r, record CallListEnabledBaselines w)
    /\ forall code, r <> Exits code.
Proof.
  unfold get_identity_center_enabled_baseline_arn, bind,
    call_list_enabled_baselines.
  destruct (list_enabled_baselines client) as [enabled | e];
    cbn [of_outcome].
  - eexists. split; [reflexivity |].
    induction enabled as [| b rest IH]; [discriminate |].
    cbn. now destruct (contains identity_center_marker (enabled_arn b)).
  - eexists. split; [reflexivity | discriminate].
Qed.

(** X10. When one of the two identifiers cannot be resolved, the run prints
    the error and leaves the process with status 1 before anything is done
    for an OU, whatever the list of OUs: if the baseline identifier fails,
    after the one call that lists the baselines; if the identity-center ARN
    fails, after the two list calls.  No enable call and no poll is made. *)
Theorem register_ous_stops_when_unresolved
    (boto3_client : string -> Client) (region : string) (ous : list OU)
    (w : World) (e : exn) :
  let client := boto3_client region in
  let listed := record CallListBaselines w in
  (result_of (get_baseline_identifier client) w = Raises e ->
   register_ous boto3_client region ous w
   = (Exits 1, record (Printed (LogErrorBaselineInfo e)) listed))
  /\
  ((exists id, result_of (get_baseline_identifier client) w = Returns id) ->
   result_of (get_identity_center_enabled_baseline_arn client) listed
   = Raises e ->
   register_ous boto3_client region ous w
   = (Exits 1,
      record (Printed (LogErrorBaselineInfo e))
        (record CallListEnabledBaselines listed))).
Proof.
  intros client listed. subst client listed.
  destruct (get_baseline_identifier_run (boto3_client region) w)
    as (r1 & Hrun1 & _).
  destruct (get_identity_center_enabled_baseline_arn_run
              (boto3_client region) (record CallListBaselines w))
    as (r2 & Hrun2 & _).
  unfold result_of, register_ous, try_except, bind.
  rewrite Hrun1. cbn [fst]. split.
  - intros ->. reflexivity.
  - intros [id ->]. rewrite Hrun2. cbn [fst]. intros ->. reflexivity.
Qed.

(** Over OUs that are all already governed the loop makes one enable call
    per OU and completes. *)
Lemma register_each_governed
    (client : Client) (baseline_identifier identity_center_arn : string)
    (ous : list OU) :
  (forall k args,
      exists message,
        enable_baseline_api client k args
        = inr (ClientError "ConflictException" message)
        /\ contains "already governed" message = true) ->
  forall w : World,
    exists w',
      register_each
        (fun ou =>
           register_ou client (ou_id ou) (ou_arn ou) baseline_identifier
             identity_center_arn)
        ous w
      = (Returns tt, w')
      /\ attempted (length ous) 0 w w'.
Proof.
  intros Hgov.
  induction ous as [| ou rest IH]; intros w.
  - exists w. split; [reflexivity | unfold attempted; cbn; lia].
  - destruct (Hgov (enable_calls w)
                (enable_args (ou_arn ou) baseline_identifier
                   identity_center_arn)) as (message & Hanswer & Hphrase).
    destruct (register_ou_governed client baseline_identifier
                identity_center_arn ou w message Hanswer Hphrase)
      as (w1 & Hrun & Hc & Hs & Ho).
    destruct (IH w1) as (w2 & Hrest & Hc' & Hs' & Ho').
    exists w2. cbn [register_each]. unfold bind. rewrite Hrun.
    split; [exact Hrest | unfold attempted; cbn [length]; lia].
Qed.

(** X12. Running again over OUs that are already registered does nothing
    to them: when both identifiers resolve and the control plane answers
    every enable call with an already-governed conflict, [register_ous]
    returns after exactly one enable call per OU of the list, without a
    poll and without sleeping. *)
Theorem register_ous_skips_governed_ous
    (boto3_client : string -> Client) (region : string) (ous : list OU)
    (w : World) (baseline_identifier identity_center_arn : string) :
  let client := boto3_client region in
  let run := register_ous boto3_client region ous in
  result_of (get_baseline_identifier client) w = Returns baseline_identifier ->
  result_of (get_identity_center_enabled_baseline_arn client)
    (record CallListBaselines w)
  = Returns identity_center_arn ->
  (forall k args,
      exists message,
        enable_baseline_api client k args
        = inr (ClientError "ConflictException" message)
        /\ contains "already governed" message = true) ->
  result_of run w = Returns tt
  /\ enable_calls (world_after run w) = enable_calls w + length ous
  /\ operation_calls (world_after run w) = operation_calls w
  /\ slept (world_after run w) = slept w.
Proof.
  intros client run. subst client run.
  destruct (get_baseline_identifier_run (boto3_client region) w)
    as (r1 & Hrun1 & _).
  destruct (get_identity_center_enabled_baseline_arn_run
              (boto3_client region) (record CallListBaselines w))
    as (r2 & Hrun2 & _).
  unfold result_of, world_after, register_ous, try_except, bind.
  rewrite Hrun1. cbn [fst]. intros ->. rewrite Hrun2. cbn [fst]. intros ->.
  intros Hgov. cbn [ret fst snd].
  destruct (register_each_governed (boto3_client region) baseline_identifier
              identity_center_arn ous Hgov
              (record CallListEnabledBaselines (record CallListBaselines w)))
    as (w' & Hloop & Hc & Hs & Ho).
  rewrite Hloop. cbn [fst snd record enable_calls operation_calls slept] in *.
  repeat split; lia.
Qed.

Lemma register_ous_stops_when_unresolved_witness :
  register_ous (fun _ => unreachable) "us-east-1" [ou1; ou2] initial_world
  = (Exits 1,
     record (Printed (LogErrorBaselineInfo connection_lost))
       (record CallListBaselines initial_world))
  /\ register_ous (fun _ => without_identity_center) "us-east-1" [ou1; ou2]
       initial_world
     = (Exits 1,
        record (Printed (LogErrorBaselineInfo not_found_identity_center))
          (record CallListEnabledBaselines
             (record CallListBaselines initial_world))).
Proof.
  split.
  - apply (proj1 (register_ous_stops_when_unresolved (fun _ => unreachable)
                    "us-east-1" [ou1; ou2] initial_world connection_lost)).
    reflexivity.
  - apply (proj2 (register_ous_stops_when_unresolved
                    (fun _ => without_identity_center) "us-east-1"
                    [ou1; ou2] initial_world not_found_identity_center)).
    + exists baseline_id. reflexivity.
    + reflexivity.
Defined.

Lemma register_ous_skips_governed_ous_witness :
  let run :=
    register_ous (fun _ => all_governed) "us-east-1" [ou1; ou2; ou3] in
  result_of run initial_world = Returns tt
  /\ enable_calls (world_after run initial_world) = 3
  /\ operation_calls (world_after run initial_world) = 0
  /\ slept (world_after run initial_world) = 0.
Proof.
  apply (register_ous_skips_governed_ous (fun _ => all_governed) "us-east-1"
           [ou1; ou2; ou3] initial_world baseline_id identity_arn).
  - reflexivity.
  - reflexivity.
  - intros k args. eexists. split.
    + unfold all_governed, scripted, script. cbn.
      destruct k; reflexivity.
    + reflexivity.
Defined.

(** ** What a run adds to the trace *)

Section Growth.

Variable Q : event -> Prop.

Lemma grows_refl (w : World) : grows Q w w.
Proof.
  exists []. split; [now rewrite app_nil_r | constructor].
Qed.

Lemma grows_trans (w1 w2 w3 : World) :
  grows Q w1 w2 -> grows Q w2 w3 -> grows Q w1 w3.
Proof.
  intros (a & Ha & HQa) (b & Hb & HQb). exists (a ++ b)%list. split.
  - now rewrite Hb, Ha, app_assoc.
  - apply Forall_app. now split.
Qed.

Lemma grows_event (w w' : World) (ev : event) :
  Q ev -> trace w' = (trace w ++ [ev])%list -> grows Q w w'.
Proof.
  intros HQ Htrace. exists [ev]. split; [exact Htrace | now constructor].
Qed.

Hypothesis Q_line : forall line, not_registering line -> Q (Printed line).
Hypothesis Q_sleep : forall seconds, Q (Slept seconds).

Lemma grows_line (w : World) (line : log_line) :
  not_registering line -> grows Q w (record (Printed line) w).
Proof.
  intros Hline. apply grows_event with (ev := Printed line);
    [now apply Q_line | reflexivity].
Qed.

Lemma grows_asleep (w : World) (seconds : nat) :
  grows Q w (asleep seconds w).
Proof.
  apply grows_event with (ev := Slept seconds);
    [apply Q_sleep | reflexivity].
Qed.

Variable client : Client.

Section Polls.

Variable operation_id : string.

Hypothesis Q_poll : Q (CallGetBaselineOperation operation_id).

Lemma poll_once_grows (w : World) :
  grows Q w (world_after (poll_once client operation_id) w).
Proof.
  assert (Hcall :
    grows Q w
      {| trace := trace w ++ [CallGetBaselineOperation operation_id];
         enable_calls := enable_calls w;
         operation_calls := S (operation_calls w);
         slept := slept w |}).
  { apply grows_event with (ev := CallGetBaselineOperation operation_id);
      [exact Q_poll | reflexivity]. }
  unfold world_after, poll_once, try_except, bind,
    call_get_baseline_operation, print, ret.
  destruct (get_baseline_operation client (operation_calls w) operation_id)
    as [response | [code message | message]]; cbn [of_outcome fst snd].
  - eapply grows_trans; [exact Hcall |].
    eapply grows_trans; [apply grows_line with (line := LogOperationResponse response); exact I |].
    destruct (get_status response) as [st |].
    + destruct (str_truthy st).
      * eapply grows_trans;
          [apply grows_line with (line := LogOperationStatus st); exact I |].
        destruct (st =? "SUCCEEDED"); [apply grows_refl |].
        destruct (st =? "FAILED"); [apply grows_refl |].
        apply grows_asleep.
      * eapply grows_trans;
          [apply grows_line with (line := LogStatusNotFound response);
           exact I |].
        apply grows_asleep.
    + eapply grows_trans;
        [apply grows_line with (line := LogStatusNotFound response);
         exact I |].
      apply grows_asleep.
  - eapply grows_trans; [exact Hcall |].
    eapply grows_trans;
      [apply grows_line
         with (line := LogErrorCheckingStatus (ClientError code message));
       exact I |].
    apply grows_asleep.
  - exact Hcall.
Qed.

Lemma poll_loop_grows (n : nat) :
  forall w : World,
    grows Q w (world_after (poll_loop client operation_id n) w).
Proof.
  induction n as [| n IH]; intros w; [apply grows_refl |].
  pose proof (poll_once_grows w) as Hstep.
  unfold world_after in *. cbn [poll_loop]. unfold bind.
  destruct (poll_once client operation_id w) as [[[b |] | e | code] w1];
    cbn [snd] in *; try exact Hstep.
  eapply grows_trans; [exact Hstep | apply IH].
Qed.

End Polls.

Variables ou_id_ ou_arn_ baseline_identifier identity_center_arn : string.

Hypothesis Q_enable :
  Q (CallEnableBaseline
       (enable_args ou_arn_ baseline_identifier identity_center_arn)).

Local Abbreviation enable :=
  (enable_baseline client ou_id_ ou_arn_ baseline_identifier
     identity_center_arn).

Local Abbreviation attempt :=
  (attempt_once client ou_id_ ou_arn_ baseline_identifier
     identity_center_arn).

Local Abbreviation loop :=
  (attempt_loop client ou_id_ ou_arn_ baseline_identifier
     identity_center_arn).

Lemma enable_baseline_grows (w : World) :
  grows Q w (world_after enable w).
Proof.
  assert (Hcall :
    grows Q w
      (enable_called
         (enable_args ou_arn_ baseline_identifier identity_center_arn) w))
    by (eapply grows_event; [exact Q_enable | reflexivity]).
  unfold world_after. rewrite enable_baseline_unfold. cbv zeta.
  destruct (enable_baseline_api client (enable_calls w) _)
    as [response | [code message | message]]; cbn [snd].
  - eapply grows_trans; [exact Hcall | now apply grows_line].
  - assert (Hlogged :
      grows Q w
        (record (Printed (LogClientErrorInEnable (ClientError code message)))
           (enable_called
              (enable_args ou_arn_ baseline_identifier identity_center_arn)
              w)))
      by (eapply grows_trans; [exact Hcall | now apply grows_line]).
    destruct (code =? "ConflictException"); [| exact Hlogged].
    destruct (contains "already governed" message);
      [eapply grows_trans; [exact Hlogged | now apply grows_line] |].
    destruct (contains "another operation is in progress" message);
      [eapply grows_trans; [exact Hlogged | now apply grows_line] |].
    exact Hlogged.
  - exact Hcall.
Qed.

Lemma attempt_once_grows (w : World) :
  grows Q w (world_after attempt w).
Proof.
  pose proof (enable_baseline_grows w) as Henable.
  unfold world_after in *. rewrite attempt_once_unfold.
  destruct (enable w) as [[v | e | code] w1]; cbn [snd] in *.
  - destruct (truthy v && negb (opt_eqb v IN_PROGRESS)); [exact Henable |].
    destruct (is_None v); [exact Henable |].
    eapply grows_trans; [exact Henable | apply grows_asleep].
  - eapply grows_trans; [exact Henable |].
    eapply grows_trans; [| apply grows_asleep]. now apply grows_line.
  - exact Henable.
Qed.

Lemma attempt_loop_grows (n : nat) :
  forall w : World, grows Q w (world_after (loop n) w).
Proof.
  induction n as [| n IH]; intros w; [apply grows_refl |].
  pose proof (attempt_once_grows w) as Hstep.
  unfold world_after in *. rewrite attempt_loop_S.
  destruct (attempt w) as [[[v |] | e | code] w1]; cbn [snd] in *;
    try exact Hstep.
  eapply grows_trans; [exact Hstep | apply IH].
Qed.

Hypothesis Q_polls : forall id, Q (CallGetBaselineOperation id).

(** After the line that tells it was entered, [register_ou] adds only
    events of [Q]. *)
Lemma register_ou_grows (w : World) :
  grows Q (record (Printed (LogRegistering ou_id_)) w)
    (world_after
       (register_ou client ou_id_ ou_arn_ baseline_identifier
          identity_center_arn) w).
Proof.
  pose proof (attempt_loop_grows attempt_budget
                (record (Printed (LogRegistering ou_id_)) w)) as Hwait.
  unfold world_after in *. rewrite register_ou_unfold. cbv zeta.
  unfold wait_for_in_progress_operations.
  destruct (attempt_loop _ _ _ _ _ attempt_budget _) as [[v | e | code] w1];
    cbn [snd] in *.
  - assert (Hskip :
      grows Q (record (Printed (LogRegistering ou_id_)) w)
        (record (Printed (LogSkipped ou_id_)) w1))
      by (eapply grows_trans; [exact Hwait | now apply grows_line]).
    destruct v as [id |]; [| exact Hskip].
    destruct (str_truthy id); [| exact Hskip].
    pose proof (poll_loop_grows id (Q_polls id) poll_budget w1) as Hpoll.
    unfold world_after, check_operation_status in *.
    destruct (poll_loop client id poll_budget w1) as [[[|] | e | code] w2];
      cbn [snd] in *;
      (eapply grows_trans; [exact Hwait |]);
      try (eapply grows_trans; [exact Hpoll | now apply grows_line]).
    exact Hpoll.
  - eapply grows_trans; [exact Hwait | now apply grows_line].
  - exact Hwait.
Qed.

End Growth.

Lemma registering_app (a b : list event) :
  registering (a ++ b) = (registering a ++ registering b)%list.
Proof.
  induction a as [| ev a IH]; [reflexivity |].
  destruct ev as [line | | | | |]; cbn; try exact IH.
  destruct line; cbn; try exact IH. now rewrite IH.
Qed.

Lemma registering_quiet (w w' : World) :
  grows quiet w w' -> registering (trace w') = registering (trace w).
Proof.
  intros (added & -> & Hquiet). rewrite registering_app.
  assert (Hnone : registering added = []).
  { induction Hquiet as [| ev rest Hev _ IH]; [reflexivity |].
    destruct ev as [line | | | | |]; cbn; try exact IH.
    destruct line; cbn in *; try exact IH. contradiction. }
  now rewrite Hnone, app_nil_r.
Qed.

(** One call of [register_ou] prints one "Registering OU" line, for its
    OU. *)
Lemma register_ou_registering
    (client : Client)
    (ou_id_ ou_arn_ baseline_identifier identity_center_arn : string)
    (w : World) :
  registering
    (trace
       (world_after
          (register_ou client ou_id_ ou_arn_ baseline_identifier
             identity_center_arn) w))
  = (registering (trace w) ++ [ou_id_])%list.
Proof.
  rewrite (registering_quiet _ _
             (register_ou_grows quiet (fun line H => H) (fun _ => I) client
                ou_id_ ou_arn_ baseline_identifier identity_center_arn I
                (fun _ => I) w)).
  cbn [record trace]. now rewrite registering_app.
Qed.

Lemma register_each_registering
    (client : Client) (baseline_identifier identity_center_arn : string)
    (ous : list OU) :
  forall w : World,
    let loop :=
      register_each
        (fun ou =>
           register_ou client (ou_id ou) (ou_arn ou) baseline_identifier
             identity_center_arn)
        ous in
    exists n,
      n <= length ous
      /\ registering (trace (world_after loop w))
         = (registering (trace w) ++ map ou_id (firstn n ous))%list
      /\ (result_of loop w = Returns tt -> n = length ous).
Proof.
  induction ous as [| ou rest IH]; intros w loop; subst loop.
  - exists 0. cbn. rewrite app_nil_r. now repeat split.
  - pose proof (register_ou_registering client (ou_id ou) (ou_arn ou)
                  baseline_identifier identity_center_arn w) as Hentered.
    destruct (register_ou_total client (ou_id ou) (ou_arn ou)
                baseline_identifier identity_center_arn w) as [b Hb].
    unfold result_of, world_after in *. cbn [register_each]. unfold bind.
    destruct (register_ou _ _ _ _ _ w) as [r w1]. cbn [fst snd] in *.
    subst r. destruct b.
    + destruct (IH w1) as (n & Hn & Htrace & Hall).
      exists (S n). cbn [length firstn map]. split; [lia |]. split.
      * rewrite Htrace, Hentered, <- app_assoc. reflexivity.
      * intros Hret. now rewrite (Hall Hret).
    + exists 1. cbn [length firstn map print sys_exit fst snd record trace].
      split; [lia |]. split; [| discriminate].
      rewrite registering_app, app_nil_r. exact Hentered.
Qed.

(** The loop of a run adds only events of the run. *)
Lemma register_each_grows
    (client : Client) (baseline_identifier identity_center_arn : string)
    (ous part : list OU) :
  incl part ous ->
  forall w : World,
    grows (run_event ous baseline_identifier identity_center_arn) w
      (world_after
         (register_each
            (fun ou =>
               register_ou client (ou_id ou) (ou_arn ou) baseline_identifier
                 identity_center_arn)
            part) w).
Proof.
  set (Q := run_event ous baseline_identifier identity_center_arn).
  assert (Q_line : forall line, not_registering line -> Q (Printed line))
    by (intros line _; exact I).
  induction part as [| ou rest IH]; intros Hincl w; [apply grows_refl |].
  assert (Hou : In ou ous) by (apply Hincl; now left).
  assert (Hrest : incl rest ous)
    by (intros x Hx; apply Hincl; now right).
  pose proof (register_ou_grows Q Q_line (fun _ => I) client (ou_id ou)
                (ou_arn ou) baseline_identifier identity_center_arn
                (ex_intro _ ou (conj Hou eq_refl)) (fun _ => I) w) as Hrun.
  assert (Hentered : grows Q w (record (Printed (LogRegistering (ou_id ou))) w))
    by (apply grows_event with (ev := Printed (LogRegistering (ou_id ou)));
        [exact I | reflexivity]).
  unfold world_after in *. cbn [register_each]. unfold bind.
  destruct (register_ou _ _ _ _ _ w) as [[[|] | e | code] w1];
    cbn [snd print sys_exit] in *;
    (eapply grows_trans; [exact Hentered |]);
    (eapply grows_trans; [exact Hrun |]);
    try apply grows_refl.
  - now apply IH.
  - now apply grows_line.
Qed.

(** X13. Once the two identifiers are resolved, a run makes the two list
    calls first and never again; after them it prints, sleeps, polls, and
    sends enable requests, each of which targets the ARN of an OU of the
    input list and carries the resolved baseline identifier, version "4.0"
    and the resolved identity-center ARN as its one parameter. *)
Theorem register_ous_sends_only_its_requests
    (boto3_client : string -> Client) (region : string) (ous : list OU)
    (w : World) (baseline_identifier identity_center_arn : string) :
  let client := boto3_client region in
  let run := register_ous boto3_client region ous in
  result_of (get_baseline_identifier client) w = Returns baseline_identifier ->
  result_of (get_identity_center_enabled_baseline_arn client)
    (record CallListBaselines w)
  = Returns identity_center_arn ->
  exists rest,
    trace (world_after run w)
    = (trace w ++ CallListBaselines :: CallListEnabledBaselines :: rest)%list
    /\ Forall (run_event ous baseline_identifier identity_center_arn) rest.
Proof.
  intros client run. subst client run.
  destruct (get_baseline_identifier_run (boto3_client region) w)
    as (r1 & Hrun1 & _).
  destruct (get_identity_center_enabled_baseline_arn_run
              (boto3_client region) (record CallListBaselines w))
    as (r2 & Hrun2 & _).
  unfold result_of, world_after, register_ous, try_except, bind.
  rewrite Hrun1. cbn [fst]. intros ->. rewrite Hrun2. cbn [fst]. intros ->.
  cbn [ret fst snd].
  destruct (register_each_grows (boto3_client region) baseline_identifier
              identity_center_arn ous ous (incl_refl ous)
              (record CallListEnabledBaselines (record CallListBaselines w)))
    as (rest & Htrace & Hrest).
  exists rest. unfold world_after in Htrace. rewrite Htrace.
  cbn [record trace]. split; [| exact Hrest].
  now rewrite <- !app_assoc.
Qed.

(** X14. The OUs [register_ou] is entered for during a run are, in input
    order and each once, the first [n] OUs of the list, for some [n]; when
    the run returns, they are the whole list. *)
Theorem register_ous_enters_a_prefix
    (boto3_client : string -> Client) (region : string) (ous : list OU)
    (w : World) :
  let run := register_ous boto3_client region ous in
  exists n,
    n <= length ous
    /\ registering (trace (world_after run w))
       = (registering (trace w) ++ map ou_id (firstn n ous))%list
    /\ (result_of run w = Returns tt -> n = length ous).
Proof.
  intros run. subst run.
  destruct (get_baseline_identifier_run (boto3_client region) w)
    as (r1 & Hrun1 & Hexit1).
  destruct (get_identity_center_enabled_baseline_arn_run
              (boto3_client region) (record CallListBaselines w))
    as (r2 & Hrun2 & Hexit2).
  assert (Hnone : forall w' : World,
    registering (trace w') = registering (trace w) ->
    registering (trace w')
    = (registering (trace w) ++ map ou_id (firstn 0 ous))%list)
    by (intros w' ->; cbn; now rewrite app_nil_r).
  unfold result_of, world_after, register_ous, try_except, bind.
  rewrite Hrun1.
  destruct r1 as [id | e | code]; [| | now destruct (Hexit1 code)].
  - rewrite Hrun2.
    destruct r2 as [arn | e | code]; [| | now destruct (Hexit2 code)].
    + cbn [ret fst snd].
      destruct (register_each_registering (boto3_client region) id arn ous
                  (record CallListEnabledBaselines
                     (record CallListBaselines w)))
        as (n & Hn & Htrace & Hall).
      exists n. split; [exact Hn |]. split; [| exact Hall].
      unfold world_after in Htrace. rewrite Htrace.
      cbn [record trace]. now rewrite !registering_app, !app_nil_r.
    + exists 0. split; [lia |]. split; [| discriminate].
      apply Hnone. cbn [is_Exception print sys_exit bind fst snd record trace].
      now rewrite !registering_app, !app_nil_r.
  - exists 0. split; [lia |]. split; [| discriminate].
    apply Hnone. cbn [is_Exception print sys_exit bind fst snd record trace].
    now rewrite !registering_app, !app_nil_r.
Qed.

Lemma register_ous_sends_only_its_requests_witness :
  exists rest,
    trace
      (world_after
         (register_ous (fun _ => throttled_after_first) "us-east-1"
            [ou1; ou2; ou3])
         initial_world)
    = ([] ++ CallListBaselines :: CallListEnabledBaselines :: rest)%list
    /\ Forall (run_event [ou1; ou2; ou3] baseline_id identity_arn) rest.
Proof.
  apply (register_ous_sends_only_its_requests (fun _ => throttled_after_first)
           "us-east-1" [ou1; ou2; ou3] initial_world baseline_id
           identity_arn);
    reflexivity.
Defined.

(** ** Substrings *)

Lemma contains_unfold (needle hay : string) :
  contains needle hay
  = if prefix needle hay then true
    else match hay with
         | EmptyString => false
         | String _ rest => contains needle rest
         end.
Proof.
  destruct hay; reflexivity.
Qed.

Lemma prefix_append (needle post : string) :
  prefix needle (needle ++ post) = true.
Proof.
  induction needle as [| a needle IH]; [now destruct post |].
  cbn. destruct (ascii_dec a a) as [_ | Hne]; [exact IH | contradiction].
Qed.

Lemma prefix_split (needle hay : string) :
  prefix needle hay = true -> exists post, hay = needle ++ post.
Proof.
  revert hay. induction needle as [| a needle IH]; intros hay Hprefix.
  - now exists hay.
  - destruct hay as [| b hay]; [discriminate |].
    cbn in Hprefix. destruct (ascii_dec a b) as [<- | _]; [| discriminate].
    destruct (IH hay Hprefix) as [post ->]. now exists post.
Qed.

(** [contains] is Python's [in] on strings: the needle occurs somewhere in
    the string. *)
Lemma contains_occurs (needle hay : string) :
  contains needle hay = true <->
  exists pre post, hay = pre ++ needle ++ post.
Proof.
  split.
  - induction hay as [| a hay IH]; rewrite contains_unfold;
      destruct (prefix needle _) eqn:Hprefix.
    + intros _. destruct (prefix_split _ _ Hprefix) as [post Hpost].
      now exists "", post.
    + discriminate.
    + intros _. destruct (prefix_split _ _ Hprefix) as [post Hpost].
      now exists "", post.
    + intros Hrest. destruct (IH Hrest) as (pre & post & ->).
      now exists (String a pre), post.
  - intros (pre & post & ->).
    induction pre as [| a pre IH]; rewrite contains_unfold.
    + cbn [append]. now rewrite prefix_append.
    + cbn [append]. now destruct (prefix needle _).
Qed.

(** X15. [enable_baseline] returns [None], the value its callers read as
    "already registered", in exactly two cases: the control plane raised a
    [ConflictException] whose message has "already governed" somewhere in
    it, whatever comes before and after; or it accepted the request with an
    answer that has no operation identifier. *)
Theorem enable_baseline_none_iff
    (client : Client)
    (ou_id_ ou_arn_ baseline_identifier identity_center_arn : string)
    (w : World) :
  let answer :=
    enable_baseline_api client (enable_calls w)
      (enable_args ou_arn_ baseline_identifier identity_center_arn) in
  result_of
    (enable_baseline client ou_id_ ou_arn_ baseline_identifier
       identity_center_arn) w
  = Returns None
  <->
  (exists pre post,
      answer
      = inr (ClientError "ConflictException"
               (pre ++ "already governed" ++ post)))
  \/ (exists response,
         answer = inl response /\ operationIdentifier response = None).
Proof.
  intros answer. subst answer. unfold result_of.
  rewrite enable_baseline_unfold. cbv zeta.
  destruct (enable_baseline_api client (enable_calls w) _)
    as [response | [code message | message]]; cbn [fst].
  - split.
    + intros Hnone. right. exists response. split; [reflexivity |].
      now injection Hnone.
    + intros [(pre & post & Heq) | (response' & Heq & Hid)];
        [discriminate |].
      injection Heq as <-. now rewrite Hid.
  - destruct (code =? "ConflictException") eqn:Hcode.
    + apply String.eqb_eq in Hcode. subst code.
      destruct (contains "already governed" message) eqn:Hgov.
      * split; [intros _ | reflexivity]. left.
        destruct (proj1 (contains_occurs _ _) Hgov) as (pre & post & ->).
        now exists pre, post.
      * assert (Hnot : forall pre post,
                  message <> pre ++ "already governed" ++ post).
        { intros pre post ->.
          assert (Hyes : contains "already governed"
                           (pre ++ "already governed" ++ post) = true)
            by (apply contains_occurs; now exists pre, post).
          congruence. }
        split.
        -- destruct (contains "another operation is in progress" message);
             discriminate.
        -- intros [(pre & post & Heq) | (response & Heq & _)];
             [| discriminate].
           injection Heq as Heq. now destruct (Hnot pre post).
    + apply String.eqb_neq in Hcode. split; [discriminate |].
      intros [(pre & post & Heq) | (response & Heq & _)]; [| discriminate].
      injection Heq as Heq _. now destruct Hcode.
  - split; [discriminate |].
    intros [(pre & post & Heq) | (response & Heq & _)]; discriminate.
Qed.

(** ** Records with missing keys *)

Section Records.

Variable client : Client.
Variables baseline_identifier identity_center_arn : string.

Local Abbreviation registrar :=
  (fun ou : OU =>
     register_ou client (ou_id ou) (ou_arn ou) baseline_identifier
       identity_center_arn).

Local Abbreviation loop :=
  (register_each_record client baseline_identifier identity_center_arn).

(** On objects that have both keys the loop is the loop on the records. *)
Lemma register_each_record_holds (ds : list dict) (ous : list OU) :
  Forall2 holds ds ous ->
  forall w : World, loop ds w = register_each registrar ous w.
Proof.
  induction 1 as [| d ou ds ous [Hid Harn] _ IH]; intros w;
    [reflexivity |].
  cbn [register_each_record register_each]. unfold bind, getitem.
  rewrite Hid, Harn.
  destruct (register_ou _ _ _ _ _ w) as [[[|] | e | code] w1];
    [apply IH | reflexivity ..].
Qed.

(** The loop goes through the objects before the first one that lacks a
    key, and raises [KeyError] there if they all succeeded. *)
Lemma register_each_record_missing
    (ds : list dict) (ous : list OU) (d : dict) (rest : list dict)
    (key : string) :
  Forall2 holds ds ous ->
  missing_key d = Some key ->
  forall w : World,
    result_of (register_each registrar ous) w = Returns tt ->
    loop (ds ++ d :: rest) w
    = (Raises (KeyError key), world_after (register_each registrar ous) w).
Proof.
  intros Hholds Hmissing.
  induction Hholds as [| d' ou ds ous [Hid Harn] _ IH]; intros w Hgood.
  - cbn [app register_each_record register_each]. unfold bind, getitem.
    unfold missing_key in Hmissing.
    destruct (d "id") as [i |]; [destruct (d "arn") as [a |] |];
      try discriminate; injection Hmissing as <-; reflexivity.
  - unfold result_of, world_after in *.
    cbn [app register_each_record register_each] in *.
    unfold bind, getitem in *. rewrite Hid, Harn.
    destruct (register_ou _ _ _ _ _ w) as [[[|] | e | code] w1];
      cbn [fst snd] in *; try discriminate.
    now apply IH.
Qed.

End Records.

(** X16. A run over JSON objects that each have an ['id'] and an ['arn']
    does what the run over the corresponding records does, whatever other
    keys the objects carry. *)
Theorem register_ous_records_reads_id_and_arn
    (boto3_client : string -> Client) (region : string)
    (ds : list dict) (ous : list OU) (w : World) :
  Forall2 holds ds ous ->
  register_ous_records boto3_client region ds w
  = register_ous boto3_client region ous w.
Proof.
  intros Hholds. unfold register_ous_records, register_ous, bind.
  destruct (try_except _ _ _ w) as [[ids | e | code] w1]; try reflexivity.
  apply register_each_record_holds. exact Hholds.
Qed.

(** X17. The records are not checked before the run starts: when the two
    identifiers resolve, the objects before the first one that lacks
    ['id'] or ['arn'] are registered, and if they all succeed the run then
    raises [KeyError] for the missing key, an exception and not the exit
    with status 1 of a failed registration, without an enable call for that
    object or any after it. *)
Theorem register_ous_records_raises_on_missing_key
    (boto3_client : string -> Client) (region : string)
    (ds : list dict) (ous : list OU) (d : dict) (rest : list dict)
    (key : string) (w : World)
    (baseline_identifier identity_center_arn : string) :
  let client := boto3_client region in
  let resolved := record CallListEnabledBaselines (record CallListBaselines w) in
  let registered :=
    register_each
      (fun ou =>
         register_ou client (ou_id ou) (ou_arn ou) baseline_identifier
           identity_center_arn)
      ous in
  result_of (get_baseline_identifier client) w = Returns baseline_identifier ->
  result_of (get_identity_center_enabled_baseline_arn client)
    (record CallListBaselines w)
  = Returns identity_center_arn ->
  Forall2 holds ds ous ->
  missing_key d = Some key ->
  result_of registered resolved = Returns tt ->
  register_ous_records boto3_client region (ds ++ d :: rest) w
  = (Raises (KeyError key), world_after registered resolved).
Proof.
  intros client resolved registered. subst client resolved registered.
  destruct (get_baseline_identifier_run (boto3_client region) w)
    as (r1 & Hrun1 & _).
  destruct (get_identity_center_enabled_baseline_arn_run
              (boto3_client region) (record CallListBaselines w))
    as (r2 & Hrun2 & _).
  unfold result_of at 1 2. unfold register_ous_records, try_except, bind.
  rewrite Hrun1. cbn [fst]. intros ->. rewrite Hrun2. cbn [fst]. intros ->.
  intros Hholds Hmissing Hgood. cbn [ret fst snd].
  now apply register_each_record_missing.
Qed.

Lemma register_ous_records_reads_id_and_arn_witness :
  register_ous_records (fun _ => busy_twice) "us-east-1"
    [as_dict ou1; as_dict ou2] initial_world
  = register_ous (fun _ => busy_twice) "us-east-1" [ou1; ou2] initial_world.
Proof.
  apply (register_ous_records_reads_id_and_arn (fun _ => busy_twice)
           "us-east-1" [as_dict ou1; as_dict ou2] [ou1; ou2] initial_world).
  repeat constructor.
Defined.

Lemma register_ous_records_raises_on_missing_key_witness :
  result_of
    (register_ous_records (fun _ => busy_twice) "us-east-1"
       [as_dict ou1; without_arn; as_dict ou3])
    initial_world
  = Raises (KeyError "arn").
Proof.
  assert (Hholds : Forall2 holds [as_dict ou1] [ou1])
    by (repeat constructor).
  assert (Hgood :
    result_of
      (register_each
         (fun ou =>
            register_ou busy_twice (ou_id ou) (ou_arn ou) baseline_id
              identity_arn)
         [ou1])
      (record CallListEnabledBaselines
         (record CallListBaselines initial_world))
    = Returns tt)
    by (vm_compute; reflexivity).
  exact (f_equal fst
           (register_ous_records_raises_on_missing_key (fun _ => busy_twice)
              "us-east-1" [as_dict ou1] [ou1] without_arn [as_dict ou3]
              "arn" initial_world baseline_id identity_arn eq_refl eq_refl
              Hholds eq_refl Hgood)).
Defined.

(** X18. An accepted enable request whose operation identifier is the
    empty string or the string ['IN_PROGRESS'] is not handed back by the
    backoff loop: the loop sleeps 60 seconds and sends the enable request
    again, with one attempt less in its budget. *)
Theorem accepted_request_is_sent_again
    (client : Client)
    (ou_id_ ou_arn_ baseline_identifier identity_center_arn : string)
    (w : World) (response : EnableResponse) (id : string) (n : nat) :
  let args := enable_args ou_arn_ baseline_identifier identity_center_arn in
  let loop :=
    attempt_loop client ou_id_ ou_arn_ baseline_identifier
      identity_center_arn in
  enable_baseline_api client (enable_calls w) args = inl response ->
  operationIdentifier response = Some id ->
  id = "" \/ id = "IN_PROGRESS" ->
  loop (S n) w
  = loop n
      (asleep 60
         (record (Printed (LogEnableResponse response))
            (enable_called args w))).
Proof.
  intros args loop Hanswer Hid Hvalue. subst args loop.
  rewrite attempt_loop_S, attempt_once_unfold, enable_baseline_unfold.
  cbv zeta. rewrite Hanswer, Hid.
  destruct Hvalue as [-> | ->]; reflexivity.
Qed.

Lemma accepted_request_is_sent_again_witness :
  attempt_loop empty_identifier_once (ou_id ou1) (ou_arn ou1) baseline_id
    identity_arn 20 initial_world
  = attempt_loop empty_identifier_once (ou_id ou1) (ou_arn ou1) baseline_id
      identity_arn 19
      (asleep 60
         (record (Printed (LogEnableResponse {| operationIdentifier := Some "" |}))
            (enable_called (enable_args (ou_arn ou1) baseline_id identity_arn)
               initial_world))).
Proof.
  apply (accepted_request_is_sent_again empty_identifier_once (ou_id ou1)
           (ou_arn ou1) baseline_id identity_arn initial_world
           {| operationIdentifier := Some "" |} "" 19).
  - reflexivity.
  - reflexivity.
  - now left.
Defined.

(** * Resolver, poller and driver, continued *)

(** C1 (code bug). The test of the source, ['arn' in baseline['arn']], holds
    for every ARN, so the function does not look for the identity-center
    baseline: whenever the first enabled baseline has an ARN, the function
    returns that ARN, whichever baseline it belongs to and whatever
    follows. *)
Theorem get_identity_center_enabled_baseline_arn_returns_first_arn
    (client : Client) (resource : string) (rest : list EnabledBaseline)
    (w : World) :
  list_enabled_baselines client
  = inl ({| enabled_arn := "arn:" ++ resource |} :: rest) ->
  result_of (get_identity_center_enabled_baseline_arn client) w
  = Returns ("arn:" ++ resource).
Proof.
  intros Hlist.
  unfold result_of, get_identity_center_enabled_baseline_arn, bind,
    call_list_enabled_baselines.
  rewrite Hlist. cbn [of_outcome fst first_identity_center_baseline].
  assert (Hmark : contains identity_center_marker ("arn:" ++ resource) = true)
    by (apply contains_occurs; now exists "", (":" ++ resource)).
  cbn [enabled_arn]. now rewrite Hmark.
Qed.

Lemma get_identity_center_enabled_baseline_arn_returns_first_arn_witness :
  result_of (get_identity_center_enabled_baseline_arn account_baselines_only)
    initial_world
  = Returns (enabled_arn audit_enabled).
Proof.
  apply (get_identity_center_enabled_baseline_arn_returns_first_arn
           account_baselines_only
           "aws:controltower:us-east-1:123456789012:enabledbaseline/XAJNUWO6SABMHQH5A"
           [log_archive_enabled] initial_world).
  reflexivity.
Defined.

(** C5, as the claim has it, fails: the second poll answers ['SUCCEEDED'],
    within the budget and with no ['FAILED'] before it, but the first poll
    raises an exception that is not a [ClientError]; the poller does not
    return [True], it raises after that one poll. *)
Lemma check_operation_status_raises_before_success :
  verdict_of (poll_at breaks_then_succeeds "op-1" initial_world 1) = Succeeded
  /\ (forall j, j < 1 ->
        verdict_of (poll_at breaks_then_succeeds "op-1" initial_world j)
        <> Failed)
  /\ result_of (check_operation_status breaks_then_succeeds "op-1")
       initial_world
     = Raises connection_lost
  /\ result_of (check_operation_status breaks_then_succeeds "op-1")
       initial_world
     <> Returns true
  /\ operation_calls
       (world_after (check_operation_status breaks_then_succeeds "op-1")
          initial_world)
     = 1.
Proof.
  split; [reflexivity | split; [| split; [| split]]].
  - intros j Hj. destruct j as [| j]; [| lia]. vm_compute. discriminate.
  - vm_compute. reflexivity.
  - vm_compute. discriminate.
  - vm_compute. reflexivity.
Qed.

(** A round whose enable call is accepted with an answer that has no
    operation identifier ends the backoff loop with [None], whatever is
    left of the budget. *)
Lemma attempt_loop_without_operation_identifier
    (client : Client)
    (ou_id_ ou_arn_ baseline_identifier identity_center_arn : string)
    (w : World) (response : EnableResponse) (n : nat) :
  let args := enable_args ou_arn_ baseline_identifier identity_center_arn in
  enable_baseline_api client (enable_calls w) args = inl response ->
  operationIdentifier response = None ->
  enable_baseline client ou_id_ ou_arn_ baseline_identifier
    identity_center_arn w
  = (Returns None,
     record (Printed (LogEnableResponse response)) (enable_called args w))
  /\ attempt_loop client ou_id_ ou_arn_ baseline_identifier
       identity_center_arn (S n) w
     = (Returns None,
        record (Printed (LogEnableResponse response)) (enable_called args w)).
Proof.
  intros args Hanswer Hid. subst args.
  assert (Henable :
    enable_baseline client ou_id_ ou_arn_ baseline_identifier
      identity_center_arn w
    = (Returns None,
       record (Printed (LogEnableResponse response))
         (enable_called
            (enable_args ou_arn_ baseline_identifier identity_center_arn) w))).
  { rewrite enable_baseline_unfold. cbv zeta. now rewrite Hanswer, Hid. }
  split; [exact Henable |].
  rewrite attempt_loop_S, attempt_once_governed.
  - unfold world_after. now rewrite Henable.
  - unfold result_of. now rewrite Henable.
Qed.

(** C10. Whichever enable call of an OU it is, the first or one that
    follows [N] attempts that answered ['IN_PROGRESS'] or raised, with [N]
    below 20: when that call is accepted but its answer has no
    ['operationIdentifier'], [enable_baseline] returns [None], the backoff
    loop hands that [None] back, and [register_ou] prints that the OU was
    skipped as already registered and returns [True], after [N + 1] enable
    calls and without a single poll. *)
Theorem missing_operation_identifier_is_skipped
    (client : Client)
    (ou_id_ ou_arn_ baseline_identifier identity_center_arn : string)
    (w : World) (N : nat) (response : EnableResponse) :
  let args := enable_args ou_arn_ baseline_identifier identity_center_arn in
  let enable :=
    enable_baseline client ou_id_ ou_arn_ baseline_identifier
      identity_center_arn in
  let wait :=
    wait_for_in_progress_operations client ou_id_ ou_arn_ baseline_identifier
      identity_center_arn in
  let register :=
    register_ou client ou_id_ ou_arn_ baseline_identifier
      identity_center_arn in
  let entered := record (Printed (LogRegistering ou_id_)) w in
  let at_attempt i :=
    after_attempts client ou_id_ ou_arn_ baseline_identifier
      identity_center_arn i entered in
  N < 20 ->
  (forall i, i < N ->
     result_of enable (at_attempt i) = Returns (Some "IN_PROGRESS")
     \/ exists e, result_of enable (at_attempt i) = Raises e) ->
  enable_baseline_api client (enable_calls (at_attempt N)) args
  = inl response ->
  operationIdentifier response = None ->
  result_of enable (at_attempt N) = Returns None
  /\ result_of wait entered = Returns None
  /\ register w
     = (Returns true,
        record (Printed (LogSkipped ou_id_))
          (record (Printed (LogEnableResponse response))
             (enable_called args (at_attempt N))))
  /\ operation_calls (world_after register w) = operation_calls w
  /\ enable_calls (world_after register w) = enable_calls w + (N + 1)
  /\ slept (world_after register w) = slept w + 60 * N.
Proof.
  intros args enable wait register entered at_attempt HN Hretry Hanswer Hid.
  subst args enable wait register at_attempt. cbv beta in *.
  destruct (attempt_loop_retries client ou_id_ ou_arn_ baseline_identifier
              identity_center_arn N (S (19 - N)) entered Hretry)
    as (Hloop & Hc & Hs & Ho).
  set (wN := after_attempts client ou_id_ ou_arn_ baseline_identifier
               identity_center_arn N entered) in *.
  destruct (attempt_loop_without_operation_identifier client ou_id_ ou_arn_
              baseline_identifier identity_center_arn wN response (19 - N)
              Hanswer Hid) as [Henable Hlast].
  assert (Hwait :
    wait_for_in_progress_operations client ou_id_ ou_arn_
      baseline_identifier identity_center_arn entered
    = (Returns None,
       record (Printed (LogEnableResponse response))
         (enable_called
            (enable_args ou_arn_ baseline_identifier identity_center_arn)
            wN))).
  { unfold wait_for_in_progress_operations.
    replace attempt_budget with (N + S (19 - N))
      by (unfold attempt_budget; lia).
    now rewrite Hloop. }
  assert (Hregister :
    register_ou client ou_id_ ou_arn_ baseline_identifier
      identity_center_arn w
    = (Returns true,
       record (Printed (LogSkipped ou_id_))
         (record (Printed (LogEnableResponse response))
            (enable_called
               (enable_args ou_arn_ baseline_identifier identity_center_arn)
               wN)))).
  { rewrite register_ou_unfold. cbv zeta. fold entered. now rewrite Hwait. }
  unfold result_of, world_after. rewrite Henable, Hwait, Hregister.
  subst entered.
  cbn [fst snd record enable_called enable_calls operation_calls slept] in *.
  repeat split; lia.
Qed.

Lemma missing_operation_identifier_is_skipped_witness :
  result_of (wait_for no_identifier_after_two)
    (record (Printed (LogRegistering "ou-1")) initial_world)
  = Returns None
  /\ result_of (register_for no_identifier_after_two) initial_world
     = Returns true
  /\ operation_calls
       (world_after (register_for no_identifier_after_two) initial_world)
     = 0
  /\ enable_calls
       (world_after (register_for no_identifier_after_two) initial_world)
     = 3
  /\ slept (world_after (register_for no_identifier_after_two) initial_world)
     = 120.
Proof.
  destruct (missing_operation_identifier_is_skipped no_identifier_after_two
              (ou_id ou1) (ou_arn ou1) baseline_id identity_arn initial_world
              2 {| operationIdentifier := None |})
    as (_ & Hwait & Hregister & Hpolls & Hcalls & Hslept).
  - lia.
  - intros i Hi. left.
    destruct i as [| [| i]]; [reflexivity | reflexivity | lia].
  - reflexivity.
  - reflexivity.
  - split; [exact Hwait |].
    split; [unfold result_of, register_for; now rewrite Hregister |].
    split; [exact Hpolls |]. split; [exact Hcalls | exact Hslept].
Defined.

(** With [register_ou] as the registrar every result is a boolean, and the
    OUs it was entered for are the OUs of the list, in order. *)
Lemma invoke_all_register_ou
    (client : Client) (baseline_identifier identity_center_arn : string)
    (ous : list OU) :
  forall w : World,
    let invoked :=
      invoke_all
        (fun ou =>
           register_ou client (ou_id ou) (ou_arn ou) baseline_identifier
             identity_center_arn)
        ous w in
    Forall (fun r => exists b, r = Returns b) (fst invoked)
    /\ registering (trace (snd invoked))
       = (registering (trace w) ++ map ou_id ous)%list.
Proof.
  induction ous as [| ou rest IH]; intros w invoked; subst invoked.
  - cbn. split; [constructor | now rewrite app_nil_r].
  - pose proof (register_ou_registering client (ou_id ou) (ou_arn ou)
                  baseline_identifier identity_center_arn w) as Hentered.
    destruct (register_ou_total client (ou_id ou) (ou_arn ou)
                baseline_identifier identity_center_arn w) as [b Hb].
    unfold result_of, world_after in *. cbn [invoke_all].
    destruct (register_ou _ _ _ _ _ w) as [r w1]. cbn [fst snd] in *.
    destruct (IH w1) as [Hbool Htrace].
    destruct (invoke_all _ rest w1) as [rs w2]. cbn [fst snd map] in *.
    split.
    + constructor; [now exists b | exact Hbool].
    + rewrite Htrace, Hentered, <- app_assoc. reflexivity.
Qed.

(** With both identifiers resolved, [register_ous] is its loop over the
    OUs, run in the world the two list calls leave. *)
Lemma register_ous_runs_loop
    (boto3_client : string -> Client) (region : string) (ous : list OU)
    (w : World) (baseline_identifier identity_center_arn : string) :
  result_of (get_baseline_identifier (boto3_client region)) w
  = Returns baseline_identifier ->
  result_of (get_identity_center_enabled_baseline_arn (boto3_client region))
    (record CallListBaselines w)
  = Returns identity_center_arn ->
  register_ous boto3_client region ous w
  = register_each
      (fun ou =>
         register_ou (boto3_client region) (ou_id ou) (ou_arn ou)
           baseline_identifier identity_center_arn)
      ous
      (record CallListEnabledBaselines (record CallListBaselines w)).
Proof.
  destruct (get_baseline_identifier_run (boto3_client region) w)
    as (r1 & Hrun1 & _).
  destruct (get_identity_center_enabled_baseline_arn_run
              (boto3_client region) (record CallListBaselines w))
    as (r2 & Hrun2 & _).
  unfold result_of, register_ous, try_except, bind.
  rewrite Hrun1. cbn [fst]. intros ->. rewrite Hrun2. cbn [fst]. intros ->.
  reflexivity.
Qed.

(** C4. For every list of OUs and whatever the client answers, once the
    client is built and the two identifiers are resolved, [register_ous]
    calls [register_ou] on the first [n] OUs of the list, in input order and
    each once, and on no OU after them: the run does what those [n] calls
    do, and the "Registering OU" lines it prints are those of these [n]
    OUs.  Either [n] is the whole list, every call returned [True] and the
    run completes; or the [n]-th OU is the first whose call returned
    [False], and the run prints which OU failed and leaves the process with
    status 1 there. *)
Theorem register_ous_halts_at_first_failure
    (boto3_client : string -> outcome Client) (region : string)
    (ous : list OU) (w : World) (client : Client)
    (baseline_identifier identity_center_arn : string) :
  let registrar :=
    fun ou =>
      register_ou client (ou_id ou) (ou_arn ou) baseline_identifier
        identity_center_arn in
  let resolved :=
    record CallListEnabledBaselines (record CallListBaselines w) in
  let run := register_ous_whole boto3_client region ous in
  boto3_client region = inl client ->
  result_of (get_baseline_identifier client) w = Returns baseline_identifier ->
  result_of (get_identity_center_enabled_baseline_arn client)
    (record CallListBaselines w)
  = Returns identity_center_arn ->
  exists n,
    n <= length ous
    /\ let invoked := invoke_all registrar (firstn n ous) resolved in
       registering (trace (world_after run w))
       = (registering (trace w) ++ map ou_id (firstn n ous))%list
       /\ ((n = length ous
            /\ fst invoked = repeat (Returns true) n
            /\ run w = (Returns tt, snd invoked))
           \/
           (exists m ou,
               n = S m
               /\ nth_error ous m = Some ou
               /\ fst invoked
                  = (repeat (Returns true) m ++ [Returns false])%list
               /\ run w
                  = (Exits 1,
                     record (Printed (LogStopping (ou_id ou)))
                       (snd invoked)))).
Proof.
  intros registrar resolved run Hclient Hbaseline Hidentity.
  assert (Hrun : run w = register_each registrar ous resolved).
  { subst run. unfold register_ous_whole, bind. rewrite Hclient.
    cbn [of_outcome].
    exact (register_ous_runs_loop (fun _ => client) region ous w
             baseline_identifier identity_center_arn Hbaseline Hidentity). }
  destruct (register_each_halts_at_first_failure registrar ous resolved)
    as (n & Hn & Hcases).
  destruct (invoke_all_register_ou client baseline_identifier
              identity_center_arn (firstn n ous) resolved)
    as [Hbool Hentered].
  fold registrar in Hbool, Hentered. cbv zeta in Hcases.
  assert (Hresolved : registering (trace resolved) = registering (trace w)).
  { subst resolved. cbn [record trace].
    now rewrite !registering_app, !app_nil_r. }
  rewrite Hresolved in Hentered.
  exists n. split; [exact Hn |]. cbv zeta. unfold world_after.
  rewrite Hrun.
  destruct Hcases
    as [(Hlen & Hrs & Hloop) | (m & ou & r & Hm & Hnth & Hrs & Hr & Hloop)].
  - rewrite Hloop. cbn [snd]. split; [exact Hentered |].
    left. now repeat split.
  - assert (Hfalse : r = Returns false).
    { rewrite Hrs in Hbool. apply Forall_app in Hbool.
      destruct Hbool as [_ Hlast]. inversion Hlast as [| ? ? [b Hb] _].
      subst r. destruct b; [now destruct Hr | reflexivity]. }
    subst r. rewrite Hloop. cbn [snd record trace]. split.
    + rewrite registering_app, app_nil_r. exact Hentered.
    + right. exists m, ou. now repeat split.
Qed.

Lemma register_ous_halts_at_first_failure_witness :
  result_of
    (register_ous_whole (in_us_east_1 throttled_after_first) "us-east-1"
       [ou1; ou2; ou3])
    initial_world
  = Exits 1
  /\ registering
       (trace
          (world_after
             (register_ous_whole (in_us_east_1 throttled_after_first)
                "us-east-1" [ou1; ou2; ou3])
             initial_world))
     = ["ou-1"; "ou-2"].
Proof.
  destruct (register_ous_halts_at_first_failure
              (in_us_east_1 throttled_after_first) "us-east-1"
              [ou1; ou2; ou3] initial_world throttled_after_first
              baseline_id identity_arn eq_refl eq_refl eq_refl)
    as (n & Hn & Hentered & Hcases).
  cbv zeta in Hentered, Hcases.
  destruct Hcases as [(_ & _ & Hrun) | (m & ou & Hm & _ & Hresults & Hrun)].
  - exfalso.
    assert (Hexit :
      result_of
        (register_ous_whole (in_us_east_1 throttled_after_first) "us-east-1"
           [ou1; ou2; ou3])
        initial_world
      = Exits 1) by (vm_compute; reflexivity).
    unfold result_of in Hexit. rewrite Hrun in Hexit. discriminate.
  - split; [unfold result_of; now rewrite Hrun |].
    subst n. rewrite Hentered.
    destruct m as [| [| [| m]]].
    + vm_compute in Hresults. discriminate.
    + reflexivity.
    + vm_compute in Hresults. discriminate.
    + cbn in Hn. lia.
Defined.

(** X3. Whatever the client answers, [check_operation_status] makes no
    enable call and ends in one of two ways.  If none of the 40 polls is
    terminal, it has made 40 polls, slept 30 seconds after each of them,
    the last one too (1200 seconds), and returns [False].  Otherwise it
    stops at the first poll [k + 1] that is terminal or raises an exception
    it does not catch: it has made [k + 1] polls and slept 30 seconds after
    each of the [k] polls before, not after the last. *)
Theorem check_operation_status_budget
    (client : Client) (operation_id : string) (w : World) :
  let poll k := verdict_of (poll_at client operation_id w k) in
  let check := check_operation_status client operation_id in
  let w' := world_after check w in
  enable_calls w' = enable_calls w
  /\ (((forall k, k < 40 -> poll k = Pending)
       /\ result_of check w = Returns false
       /\ operation_calls w' = operation_calls w + 40
       /\ slept w' = slept w + 30 * 40)
      \/
      (exists k,
          k < 40
          /\ (forall j, j < k -> poll j = Pending)
          /\ poll k <> Pending
          /\ result_of check w = ends_with (poll k)
          /\ operation_calls w' = operation_calls w + (k + 1)
          /\ slept w' = slept w + 30 * k)).
Proof.
  intros poll check w'. subst poll check w'.
  unfold result_of, world_after, check_operation_status, poll_budget.
  destruct (first_stop (fun k => verdict_of (poll_at client operation_id w k))
              40) as [Hall | (k & Hk & Hbefore & Hstop)].
  - destruct (poll_loop_exhausts client operation_id 40 w Hall)
      as (w1 & Hrun & Hc & Hs & He).
    rewrite Hrun. cbn [fst snd]. split; [exact He |].
    left. split; [exact Hall |]. split; [reflexivity |]. split; assumption.
  - destruct (poll_loop_stops client operation_id 40 k w Hk Hbefore Hstop)
      as (w1 & Hrun & Hc & Hs & He).
    rewrite Hrun. cbn [fst snd]. split; [exact He |].
    right. exists k. split; [exact Hk |]. split; [exact Hbefore |].
    split; [exact Hstop |]. split; [reflexivity |]. split; [lia | exact Hs].
Qed.


